(** * Team service (apps/auth/src/modules/team/team.service.ts)

    A shallow embedding of [TeamService] and of the part of the
    persistence layer it calls, followed by the properties of the
    creation, update and deletion workflows. *)

From stdpp Require Import base option strings list gmap fin_maps.

(** ** Entities *)

Definition TeamId := string.
Definition UserId := string.

(** Modelled from the spec: the [UserRole] enumeration of
    user/entities/user.entity.ts, which is not part of the sources.  The
    two team roles are the ones the service assigns; every other role is
    kept abstract. *)
Inductive UserRole :=
  | EXTERNAL_SUPER_ADMIN
  | EXTERNAL_MEMBER
  | OTHER_ROLE (tag : string).

(** Modelled from the spec: the [User] entity (identity, role, nullable
    team reference). *)
Record User := mkUser {
  user_id : UserId;
  user_role : UserRole;
  user_team : option TeamId
}.

(** Modelled from the spec: the [Team] entity (identity, name, optional
    description).  The [members] relation is resolved on demand, see
    [TeamWithMembers]. *)
Record Team := mkTeam {
  team_id : TeamId;
  team_name : string;
  team_description : option string
}.

(** A team loaded with [relations: ['members']]. *)
Record TeamWithMembers := mkTeamWithMembers {
  tm_team : Team;
  members : list User
}.

Global Instance UserRole_eq_dec : EqDecision UserRole.
Proof. solve_decision. Defined.
Global Instance User_eq_dec : EqDecision User.
Proof. solve_decision. Defined.
Global Instance Team_eq_dec : EqDecision Team.
Proof. solve_decision. Defined.

(** ** Requests *)

Record CreateTeamDTO := mkCreateTeamDTO {
  dto_name : string;
  dto_description : option string;
  super_admin_user_id : UserId;
  dto_members : list UserId
}.

(** [name] and [description] are optional: [None] is JavaScript's
    [undefined]. *)
Record UpdateTeamDTO := mkUpdateTeamDTO {
  upd_id : TeamId;
  upd_name : option string;
  upd_description : option string
}.

(** The value the transaction callback of [createTeam] builds. *)
Record CreateTeamResponse := mkCreateTeamResponse {
  success : bool;
  message : string;
  data : option TeamWithMembers
}.

(** ** Errors *)

Inductive ErrorCode :=
  | TEAM_ALREADY_EXISTS
  | USER_NOT_FOUND
  | TEAM_NOT_FOUND
  | TEAM_NAME_EXISTS
  | CREATE_TEAM_FAILURE.

Record GRPCError := mkGRPCError {
  err_code : ErrorCode;
  err_message : string
}.

(** Modelled from the spec: [createGRPCErrorResponse] of
    libs/response.lib.ts, which is not part of the sources; every failure
    is the structured pair of a code and a human-readable message. *)
Definition createGRPCErrorResponse (code : ErrorCode) (msg : string) : GRPCError :=
  mkGRPCError code msg.

(** The error kinds of the specification's taxonomy. *)
Inductive ErrorKind := ALREADY_EXISTS | NOT_FOUND | NAME_EXISTS | CREATE_FAILURE.

Definition kind_of (c : ErrorCode) : ErrorKind :=
  match c with
  | TEAM_ALREADY_EXISTS => ALREADY_EXISTS
  | USER_NOT_FOUND | TEAM_NOT_FOUND => NOT_FOUND
  | TEAM_NAME_EXISTS => NAME_EXISTS
  | CREATE_TEAM_FAILURE => CREATE_FAILURE
  end.

(** What a rejected promise carries: an [RpcException] raised by the
    service, or an [Error] raised by the persistence layer. *)
Inductive Thrown :=
  | RpcException (e : GRPCError)
  | PersistenceError (msg : string).

(** [(error as Error).message] *)
Definition thrown_message (t : Thrown) : string :=
  match t with
  | RpcException e => err_message e
  | PersistenceError msg => msg
  end.

(** JavaScript's [s || d] on strings: the empty string is falsy. *)
Definition or_default (s d : string) : string :=
  if decide (s = "") then d else s.

(** JavaScript truthiness of an optional string. *)
Definition truthy (o : option string) : bool :=
  match o with
  | Some s => bool_decide (s ≠ "")
  | None => false
  end.

(** ** The store *)

Record TeamRow := mkTeamRow {
  row_name : string;
  row_description : option string
}.

Record UserRow := mkUserRow {
  row_role : UserRole;
  row_team : option TeamId
}.

(** Rows are keyed by their primary key. *)
Record Store := mkStore {
  teams : gmap TeamId TeamRow;
  users : gmap UserId UserRow
}.

(** A request runs against the store and a script of the outcomes of the
    writes it will issue, in order: [None] lets the write through,
    [Some msg] makes it raise an [Error] with message [msg].  A write
    past the end of the script goes through. *)
Record World := mkWorld {
  store : Store;
  pending : list (option string)
}.

Definition Result (A : Type) : Type := (Thrown + A)%type.

(** Asynchronous service code: a computation over the world that either
    resolves to a value or rejects. *)
Definition M (A : Type) : Type := World → Result A * World.

Definition ret {A} (a : A) : M A := λ w, (inr a, w).

Definition throw {A} (t : Thrown) : M A := λ w, (inl t, w).

(** [m] followed by [k]. *)
Definition bind {A B} (m : M A) (k : A → M B) : M B :=
  λ w, match m w with
       | (inr a, w') => k a w'
       | (inl t, w') => (inl t, w')
       end.

(** [try { m } catch (error) { h error }] *)
Definition try_catch {A} (m : M A) (h : Thrown → M A) : M A :=
  λ w, match m w with
       | (inr a, w') => (inr a, w')
       | (inl t, w') => h t w'
       end.

(** The service is written with stdpp's monad notations: [x ← m; k] reads
    [const x = await m; k] and [m;; k] reads [await m; k]. *)
Global Instance M_ret : MRet M := @ret.
Global Instance M_bind : MBind M := λ A B k m, bind m k.

(** ** Persistence gateway *)

Definition team_of (id : TeamId) (r : TeamRow) : Team :=
  mkTeam id (row_name r) (row_description r).

Definition user_of (id : UserId) (r : UserRow) : User :=
  mkUser id (row_role r) (row_team r).

Definition row_of_user (u : User) : UserRow :=
  mkUserRow (user_role u) (user_team u).

Definition all_teams (s : Store) : list Team :=
  uncurry team_of <$> map_to_list (teams s).

Definition all_users (s : Store) : list User :=
  uncurry user_of <$> map_to_list (users s).

(** The [members] relation of team [id]: the users whose team reference
    is [id].  The order of the list is the store's; the source leaves
    it to the database, and no statement below depends on it. *)
Definition members_of (id : TeamId) (s : Store) : list User :=
  filter (λ u, user_team u = Some id) (all_users s).

(** Modelled from the spec: [findTeamByName], TypeORM's
    [teamRepository.findOne({ where: { name } })]; an exact match. *)
Definition team_named (n : string) (s : Store) : option Team :=
  head (filter (λ t, team_name t = n) (all_teams s)).

Definition findTeamByName (n : string) : M (option Team) :=
  λ w, (inr (team_named n (store w)), w).

(** Modelled from the spec: [findUserById],
    [userRepository.findOne({ where: { id } })]. *)
Definition findUserById (id : UserId) : M (option User) :=
  λ w, (inr (user_of id <$> users (store w) !! id), w).

(** Modelled from the spec: [findUsersByIds],
    [userRepository.find({ where: { id: In(ids) } })]; returns only the
    matches, one row per user. *)
Definition resolve (ids : list UserId) (s : Store) : list User :=
  filter (λ u, user_id u ∈ ids) (all_users s).

Definition findUsersByIds (ids : list UserId) : M (list User) :=
  λ w, (inr (resolve ids (store w)), w).

(** [teamRepository.findOne({ where: { id } })] *)
Definition findTeamById (id : TeamId) : M (option Team) :=
  λ w, (inr (team_of id <$> teams (store w) !! id), w).

(** Modelled from the spec: [findTeamById] with [includeMembers],
    [teamRepository.findOne({ where: { id }, relations: ['members'] })]. *)
Definition findTeamWithMembers (id : TeamId) : M (option TeamWithMembers) :=
  λ w, (inr ((λ r, mkTeamWithMembers (team_of id r) (members_of id (store w)))
               <$> teams (store w) !! id), w).

(** One write: it consumes the next entry of the script and either
    raises or applies [f] to the store. *)
Definition persist (f : Store → Store) : M () :=
  λ w, match pending w with
       | Some msg :: rest => (inl (PersistenceError msg), mkWorld (store w) rest)
       | None :: rest => (inr (), mkWorld (f (store w)) rest)
       | [] => (inr (), mkWorld (f (store w)) [])
       end.

Definition put_team (t : Team) (s : Store) : Store :=
  mkStore (<[team_id t := mkTeamRow (team_name t) (team_description t)]> (teams s)) (users s).

Definition put_user (u : User) (s : Store) : Store :=
  mkStore (teams s) (<[user_id u := row_of_user u]> (users s)).

Definition put_users (us : list User) (s : Store) : Store :=
  foldl (λ s u, put_user u s) s us.

Definition drop_team (id : TeamId) (s : Store) : Store :=
  mkStore (delete id (teams s)) (users s).

(** Modelled from the spec: [saveTeam], [teamRepository.save(team)] of a
    team built by [teamRepository.create]; the storage assigns the
    identifier [uuid] on this first save and returns the saved team. *)
Definition saveTeam (uuid : TeamId) (n : string) (d : option string) : M Team :=
  persist (put_team (mkTeam uuid n d));;
  ret (mkTeam uuid n d).

(** [userRepository.save(user)] *)
Definition saveUser (u : User) : M () := persist (put_user u).

(** Modelled from the spec: [saveUsers], [userRepository.save(users)];
    the batch is a single write. *)
Definition saveUsers (us : list User) : M () := persist (put_users us).

(** Modelled from the spec: [removeTeam], [teamRepository.remove(team)]. *)
Definition removeTeam (t : Team) : M () := persist (drop_team (team_id t)).

(** Modelled from the spec: [runInTransaction],
    [userRepository.manager.transaction(work)]; it yields what [work]
    yields and rolls back all writes performed by [work] if it raises.
    Whether the writes the service issues through its repositories are
    among them is the data source's doing, not the service's: the
    callback of [createTeam] takes no transactional manager. *)
Definition transaction {A} (work : M A) : M A :=
  λ w, match work w with
       | (inr a, w') => (inr a, w')
       | (inl t, w') => (inl t, mkWorld (store w) (pending w'))
       end.

(** ** TeamService *)

Definition team_exists_message (n : string) : string :=
  "团队名称「 " +:+ n +:+ " 」已存在".

(** Lines 59-93: the callback handed to [transaction].  It takes no
    argument and writes through the repositories of the service; it
    returns the success value. *)
Definition createTeam_work (uuid : TeamId) (dto : CreateTeamDTO)
    (superAdmin : User) (members : list User) : M CreateTeamResponse :=
  savedTeam ← saveTeam uuid (dto_name dto) (dto_description dto);
  let superAdmin :=
    mkUser (user_id superAdmin) EXTERNAL_SUPER_ADMIN (Some (team_id savedTeam)) in
  saveUser superAdmin;;
  (if bool_decide (0 < length members)
   then
     let members :=
       (λ member, mkUser (user_id member) EXTERNAL_MEMBER (Some (team_id savedTeam)))
         <$> members in
     saveUsers members
   else ret ());;
  teamWithMembers ← findTeamWithMembers (team_id savedTeam);
  ret (mkCreateTeamResponse true "团队创建成功" teamWithMembers).

(** Lines 21-103.  The awaited [transaction] call of line 59 is an
    expression statement and [createTeam] has no [return]: when it
    resolves, it resolves to [undefined], rendered as [None]. *)
Definition createTeam (uuid : TeamId) (dto : CreateTeamDTO)
    : M (option CreateTeamResponse) :=
  existingTeam ← findTeamByName (dto_name dto);
  if bool_decide (is_Some existingTeam)
  then throw (RpcException
                (createGRPCErrorResponse TEAM_ALREADY_EXISTS
                   (team_exists_message (dto_name dto))))
  else
  superAdmin ← findUserById (super_admin_user_id dto);
  match superAdmin with
  | None => throw (RpcException (createGRPCErrorResponse USER_NOT_FOUND "用户不存在"))
  | Some superAdmin =>
    members ←
      (if bool_decide (0 < length (dto_members dto))
       then
         members ← findUsersByIds (dto_members dto);
         if bool_decide (length members ≠ length (dto_members dto))
         then throw (RpcException
                       (createGRPCErrorResponse USER_NOT_FOUND "一个或多个团队成员不存在"))
         else ret members
       else ret []);
    try_catch
      (transaction (createTeam_work uuid dto superAdmin members);;
       ret None)
      (λ error,
         throw (RpcException
                  (createGRPCErrorResponse CREATE_TEAM_FAILURE
                     (or_default (thrown_message error) "创建团队失败"))))
  end.

(** [teamRepository.find({ relations: ['members'] })] *)
Definition findAll : M (list TeamWithMembers) :=
  λ w, (inr ((λ t, mkTeamWithMembers t (members_of (team_id t) (store w)))
               <$> all_teams (store w)), w).

Definition findOne (id : TeamId) : M TeamWithMembers :=
  team ← findTeamWithMembers id;
  match team with
  | None => throw (RpcException (createGRPCErrorResponse TEAM_NOT_FOUND "团队未找到"))
  | Some team => ret team
  end.

(** Lines 147-149: the assignments to the fetched team object. *)
Definition updateTeam_assign (dto : UpdateTeamDTO) (team : Team) : Team :=
  let team :=
    if truthy (upd_name dto)
    then mkTeam (team_id team) (default "" (upd_name dto)) (team_description team)
    else team in
  match upd_description dto with
  | Some d => mkTeam (team_id team) (team_name team) (Some d)
  | None => team
  end.

(** Lines 126-150.  Nothing is saved and nothing is returned. *)
Definition updateTeam (dto : UpdateTeamDTO) : M () :=
  team ← findTeamById (upd_id dto);
  match team with
  | None => throw (RpcException (createGRPCErrorResponse TEAM_NOT_FOUND "团队未找到"))
  | Some team =>
    (if truthy (upd_name dto) && bool_decide (upd_name dto ≠ Some (team_name team))
     then
       existingTeam ← findTeamByName (default "" (upd_name dto));
       if bool_decide (is_Some existingTeam)
       then throw (RpcException (createGRPCErrorResponse TEAM_NAME_EXISTS "团队名已存在"))
       else ret ()
     else ret ());;
    let team := updateTeam_assign dto team in
    ret ()
  end.

(** Lines 156-159:
    [for (const member of team.members) { member.team = null; await save(member) }] *)
Fixpoint detach_members (ms : list User) : M () :=
  match ms with
  | [] => ret ()
  | member :: rest =>
    let member := mkUser (user_id member) (user_role member) None in
    saveUser member;;
    detach_members rest
  end.

Definition deleteTeam (id : TeamId) : M () :=
  team ← findOne id;
  detach_members (members team);;
  removeTeam (tm_team team).

(** Lines 165-169: empty bodies. *)
Definition addTeamMembers : M () := ret ().
Definition removeTeamMember : M () := ret ().
Definition moveUserToAnotherTeam : M () := ret ().

(** ** What a request's script does to it *)

(** The first failure among the next [n] writes, with the script that
    remains after it. *)
Fixpoint first_fault (n : nat) (l : list (option string))
    : option (string * list (option string)) :=
  match n, l with
  | 0, _ | _, [] => None
  | S _, Some msg :: rest => Some (msg, rest)
  | S n, None :: rest => first_fault n rest
  end.

(** The number of writes the transaction of [createTeam] issues: the
    team, the administrator and, when there are members, their batch. *)
Definition tx_writes {A} (members : list A) : nat :=
  if bool_decide (0 < length members) then 3 else 2.

(** The store after the writes of the transaction. *)
Definition created (uuid : TeamId) (dto : CreateTeamDTO) (s : Store) : Store :=
  put_users
    ((λ member, mkUser (user_id member) EXTERNAL_MEMBER (Some uuid))
       <$> resolve (dto_members dto) s)
    (put_user (mkUser (super_admin_user_id dto) EXTERNAL_SUPER_ADMIN (Some uuid))
       (put_team (mkTeam uuid (dto_name dto) (dto_description dto)) s)).

(** The value the transaction callback resolves to on that store. *)
Definition created_response (uuid : TeamId) (dto : CreateTeamDTO) (s : Store)
    : CreateTeamResponse :=
  mkCreateTeamResponse true "团队创建成功"
    (Some (mkTeamWithMembers (mkTeam uuid (dto_name dto) (dto_description dto))
             (members_of uuid (created uuid dto s)))).

(** The three validations of [createTeam] pass. *)
Definition validated (dto : CreateTeamDTO) (s : Store) : Prop :=
  team_named (dto_name dto) s = None ∧
  is_Some (users s !! super_admin_user_id dto) ∧
  length (resolve (dto_members dto) s) = length (dto_members dto).

(** A promise rejected with an [RpcException] of kind [k]. *)
Definition rejects {A} (k : ErrorKind) (r : Result A) : Prop :=
  ∃ e, r = inl (RpcException e) ∧ kind_of (err_code e) = k.

(** Some stored team is named [n]. *)
Definition name_taken (n : string) (s : Store) : Prop :=
  ∃ id r, teams s !! id = Some r ∧ row_name r = n.

(** The administrator or one of the listed members is not a stored user. *)
Definition missing_user (dto : CreateTeamDTO) (s : Store) : Prop :=
  users s !! super_admin_user_id dto = None ∨
  ∃ k, k ∈ dto_members dto ∧ users s !! k = None.

(** The object the loop of [deleteTeam] saves for [member]. *)
Definition detached (member : User) : User :=
  mkUser (user_id member) (user_role member) None.

(** What [deleteTeam] leaves of world [w] in world [w']: one save per
    member and the removal were issued; every member keeps its role and
    has no team; the other users are as before; the team row is gone and
    the others are as before; no user refers to the identifier; [findOne]
    on it rejects with [TEAM_NOT_FOUND]. *)
Definition detached_and_removed (id : TeamId) (w w' : World) : Prop :=
  pending w' = drop (S (length (members_of id (store w)))) (pending w) ∧
  (∀ m, m ∈ members_of id (store w) →
        users (store w') !! user_id m = Some (mkUserRow (user_role m) None)) ∧
  (∀ k, k ∉ user_id <$> members_of id (store w) →
        users (store w') !! k = users (store w) !! k) ∧
  teams (store w') = delete id (teams (store w)) ∧
  members_of id (store w') = [] ∧
  findOne id w' =
  (inl (RpcException (createGRPCErrorResponse TEAM_NOT_FOUND "团队未找到")), w').

(** ** Invariants of the store *)

(** No two stored teams have the same name. *)
Definition unique_names (s : Store) : Prop :=
  ∀ i j ri rj,
    teams s !! i = Some ri → teams s !! j = Some rj →
    row_name ri = row_name rj → i = j.

(** Every team reference of a stored user names a stored team. *)
Definition references_stored (s : Store) : Prop :=
  ∀ k row t,
    users s !! k = Some row → row_team row = Some t → is_Some (teams s !! t).

(** The users a [createTeam] request names. *)
Definition named_users (dto : CreateTeamDTO) : list UserId :=
  super_admin_user_id dto :: dto_members dto.

(** ** Running examples *)

(** A user without a team. *)
Definition plain_user (id : UserId) : UserId * UserRow :=
  (id, mkUserRow (OTHER_ROLE "USER") None).

(** Three users and no team. *)
Definition store0 : Store :=
  mkStore ∅ (list_to_map [plain_user "u1"; plain_user "u2"; plain_user "u3"]).

Definition alpha : CreateTeamDTO :=
  mkCreateTeamDTO "Alpha" (Some "first team") "u1" ["u2"; "u3"].

(** The store after [createTeam] of [alpha]. *)
Definition store_alpha : Store :=
  store (snd (createTeam "t1" alpha (mkWorld store0 []))).

(** A request that lists its administrator among the members. *)
Definition alpha_admin_listed : CreateTeamDTO :=
  mkCreateTeamDTO "Alpha" (Some "first team") "u1" ["u1"; "u2"].

(** A store with a team whose name is empty, next to the team of the
    running example. *)
Definition store_blank : Store :=
  store (snd (createTeam "t2" (mkCreateTeamDTO "" None "u3" []) (mkWorld store_alpha []))).

(** Two teams: "Alpha" with [u1], [u2] and [u3], then "Beta", which takes
    [u3] as administrator and [u2] as member. *)
Definition store_beta : Store :=
  store (snd (createTeam "t2" (mkCreateTeamDTO "Beta" None "u3" ["u2"])
                (mkWorld store_alpha []))).

(** ** Tactics *)

Ltac run :=
  unfold mbind, M_bind, bind, mret, M_ret, ret, throw, try_catch; simpl.

(** Decides [validated] on a concrete request and store. *)
Ltac validate :=
  split; [by vm_compute | split; [eexists; by vm_compute | by vm_compute]].

(** ** The gateway's reads *)

Lemma user_id_all_users (s : Store) :
  user_id <$> all_users s = (map_to_list (users s)).*1.
Proof.
  unfold all_users. rewrite <- list_fmap_compose.
  apply list_fmap_ext. by intros _ [k r] _.
Qed.

Lemma NoDup_all_users (s : Store) : NoDup (user_id <$> all_users s).
Proof. rewrite user_id_all_users. apply NoDup_fst_map_to_list. Qed.

Lemma elem_of_all_users (s : Store) (x : User) :
  x ∈ all_users s ↔ users s !! user_id x = Some (row_of_user x).
Proof.
  unfold all_users. rewrite list_elem_of_fmap. split.
  - intros [[k r] [-> Hin]]. apply elem_of_map_to_list in Hin.
    by destruct r.
  - intros Hx. exists (user_id x, row_of_user x). split.
    + by destruct x.
    + by apply elem_of_map_to_list.
Qed.

Lemma elem_of_all_teams (s : Store) (t : Team) :
  t ∈ all_teams s ↔
  teams s !! team_id t = Some (mkTeamRow (team_name t) (team_description t)).
Proof.
  unfold all_teams. rewrite list_elem_of_fmap. split.
  - intros [[k r] [-> Hin]]. apply elem_of_map_to_list in Hin.
    by destruct r.
  - intros Ht. exists (team_id t, mkTeamRow (team_name t) (team_description t)).
    split; [by destruct t | by apply elem_of_map_to_list].
Qed.

Lemma team_named_is_Some (n : string) (s : Store) :
  is_Some (team_named n s) ↔ name_taken n s.
Proof.
  unfold team_named, name_taken. split.
  - intros [t Ht]. apply head_Some_elem_of in Ht.
    apply list_elem_of_filter in Ht as [Hn Ht].
    apply elem_of_all_teams in Ht. eexists _, _. split; [exact Ht | done].
  - intros (id & r & Hr & Hn).
    assert (Hin : team_of id r ∈ filter (λ t, team_name t = n) (all_teams s)).
    { apply list_elem_of_filter. split; [done |].
      apply elem_of_all_teams. by destruct r. }
    destruct (filter _ _) as [| t l]; [by apply elem_of_nil in Hin | by eexists].
Qed.

Lemma team_named_None (n : string) (s : Store) :
  team_named n s = None ↔ ¬ name_taken n s.
Proof.
  rewrite <- team_named_is_Some, <- eq_None_not_Some. done.
Qed.

Lemma NoDup_resolve (ids : list UserId) (s : Store) :
  NoDup (user_id <$> resolve ids s).
Proof.
  eapply sublist_NoDup; [apply NoDup_all_users |].
  apply fmap_sublist, sublist_filter.
Qed.

Lemma elem_of_resolve (ids : list UserId) (s : Store) (x : User) :
  x ∈ resolve ids s ↔
  user_id x ∈ ids ∧ users s !! user_id x = Some (row_of_user x).
Proof. unfold resolve. by rewrite list_elem_of_filter, elem_of_all_users. Qed.

Lemma elem_of_resolve_ids (ids : list UserId) (s : Store) (k : UserId) :
  k ∈ user_id <$> resolve ids s ↔ k ∈ ids ∧ is_Some (users s !! k).
Proof.
  rewrite list_elem_of_fmap. split.
  - intros (x & -> & Hx). apply elem_of_resolve in Hx as [? Hx]. by rewrite Hx.
  - intros [Hk [r Hr]]. exists (user_of k r). split; [done |].
    apply elem_of_resolve. by destruct r.
Qed.

Lemma resolve_submseteq (ids : list UserId) (s : Store) :
  user_id <$> resolve ids s ⊆+ ids.
Proof.
  apply NoDup_submseteq; [apply NoDup_resolve |].
  intros k Hk. by apply elem_of_resolve_ids in Hk as [? _].
Qed.

(** The count check of [createTeam] passes exactly when the requested
    identifiers are pairwise distinct and all name stored users. *)
Lemma resolve_length (ids : list UserId) (s : Store) :
  length (resolve ids s) = length ids ↔
  NoDup ids ∧ ∀ k, k ∈ ids → is_Some (users s !! k).
Proof.
  split.
  - intros Hlen.
    assert (Hp : user_id <$> resolve ids s ≡ₚ ids).
    { apply submseteq_length_Permutation; [apply resolve_submseteq |].
      rewrite length_fmap. lia. }
    split.
    + rewrite <- Hp. apply NoDup_resolve.
    + intros k Hk. rewrite <- Hp in Hk. by apply elem_of_resolve_ids in Hk as [_ ?].
  - intros [Hnd Hall].
    rewrite <- (length_fmap user_id). apply Permutation_length.
    apply NoDup_Permutation; [apply NoDup_resolve | done |].
    intros k. rewrite elem_of_resolve_ids.
    split; [by intros [? _] | intros Hk; split; [done | by apply Hall]].
Qed.

Lemma resolve_nil (s : Store) : resolve [] s = [].
Proof.
  apply nil_length_inv, resolve_length. split; [constructor |].
  intros k Hk. by apply elem_of_nil in Hk.
Qed.

(** ** The gateway's writes *)

Lemma teams_put_users (us : list User) (s : Store) :
  teams (put_users us s) = teams s.
Proof.
  revert s. induction us as [| x us IH]; intros s; [done |].
  unfold put_users in *. simpl. by rewrite IH.
Qed.

Lemma put_users_lookup_notin (us : list User) (s : Store) (k : UserId) :
  k ∉ user_id <$> us → users (put_users us s) !! k = users s !! k.
Proof.
  revert s. induction us as [| x us IH]; intros s Hk; [done |].
  rewrite fmap_cons, not_elem_of_cons in Hk. destruct Hk as [Hne Hk].
  unfold put_users in *. simpl. rewrite IH by done.
  simpl. by rewrite lookup_insert_ne.
Qed.

Lemma put_users_lookup_in (us : list User) (s : Store) (x : User) :
  NoDup (user_id <$> us) → x ∈ us →
  users (put_users us s) !! user_id x = Some (row_of_user x).
Proof.
  revert s. induction us as [| y us IH]; intros s Hnd Hx.
  - by apply elem_of_nil in Hx.
  - rewrite fmap_cons in Hnd. apply NoDup_cons in Hnd as [Hy Hnd].
    apply elem_of_cons in Hx as [-> | Hx].
    + change (put_users (y :: us) s) with (put_users us (put_user y s)).
      rewrite put_users_lookup_notin by done.
      simpl. apply lookup_insert_eq.
    + change (put_users (y :: us) s) with (put_users us (put_user y s)).
      by apply IH.
Qed.

(** The two halves of the transaction contract. *)
Lemma transaction_commits {A} (work : M A) (w w' : World) (a : A) :
  work w = (inr a, w') → transaction work w = (inr a, w').
Proof. unfold transaction. by intros ->. Qed.

Lemma transaction_rolls_back {A} (work : M A) (w w' : World) (t : Thrown) :
  work w = (inl t, w') →
  transaction work w = (inl t, mkWorld (store w) (pending w')).
Proof. unfold transaction. by intros ->. Qed.

Lemma persist_run (f : Store → Store) (w : World) :
  persist f w =
  match first_fault 1 (pending w) with
  | Some (msg, rest) => (inl (PersistenceError msg), mkWorld (store w) rest)
  | None => (inr (), mkWorld (f (store w)) (drop 1 (pending w)))
  end.
Proof. unfold persist. by destruct (pending w) as [| [msg |] rest]. Qed.

Lemma first_fault_add_None (n m : nat) (l : list (option string)) :
  first_fault (n + m) l = None →
  first_fault n l = None ∧ first_fault m (drop n l) = None.
Proof.
  revert l. induction n as [| n IH]; intros l H; [done |].
  destruct l as [| [msg |] rest]; simpl in *; [| done | by apply IH].
  split; [done | by destruct m].
Qed.

(** ** Running [createTeam] *)

Lemma transaction_createTeam_work uuid dto superAdmin w :
  user_id superAdmin = super_admin_user_id dto →
  transaction
    (createTeam_work uuid dto superAdmin (resolve (dto_members dto) (store w))) w =
  match first_fault (tx_writes (resolve (dto_members dto) (store w))) (pending w) with
  | Some (msg, rest) => (inl (PersistenceError msg), mkWorld (store w) rest)
  | None =>
    (inr (created_response uuid dto (store w)),
     mkWorld (created uuid dto (store w))
       (drop (tx_writes (resolve (dto_members dto) (store w))) (pending w)))
  end.
Proof.
  intros Hid. unfold created_response, created, transaction, createTeam_work, tx_writes.
  rewrite <- Hid. destruct w as [s p]. simpl.
  destruct (resolve (dto_members dto) s) as [| m ms] eqn:Hms.
  - destruct p as [| [m1 |] [| [m2 |] p]]; run; try done.
    all: unfold findTeamWithMembers; simpl; by rewrite lookup_insert_eq.
  - destruct p as [| [m1 |] [| [m2 |] [| [m3 |] p]]]; run; try done.
    all: unfold findTeamWithMembers; simpl.
    all: rewrite teams_put_users; simpl; by rewrite lookup_insert_eq.
Qed.

Lemma tx_writes_resolve (ids : list UserId) (s : Store) :
  length (resolve ids s) = length ids → tx_writes (resolve ids s) = tx_writes ids.
Proof. unfold tx_writes. by intros ->. Qed.

(** [createTeam], step by step. *)
Lemma createTeam_run uuid dto w :
  createTeam uuid dto w =
  match team_named (dto_name dto) (store w) with
  | Some _ =>
    (inl (RpcException (createGRPCErrorResponse TEAM_ALREADY_EXISTS
                          (team_exists_message (dto_name dto)))), w)
  | None =>
    match users (store w) !! super_admin_user_id dto with
    | None =>
      (inl (RpcException (createGRPCErrorResponse USER_NOT_FOUND "用户不存在")), w)
    | Some _ =>
      if decide (length (resolve (dto_members dto) (store w)) = length (dto_members dto))
      then
        match first_fault (tx_writes (dto_members dto)) (pending w) with
        | Some (msg, rest) =>
          (inl (RpcException (createGRPCErrorResponse CREATE_TEAM_FAILURE
                                (or_default msg "创建团队失败"))),
           mkWorld (store w) rest)
        | None =>
          (inr None,
           mkWorld (created uuid dto (store w))
             (drop (tx_writes (dto_members dto)) (pending w)))
        end
      else
        (inl (RpcException (createGRPCErrorResponse USER_NOT_FOUND
                              "一个或多个团队成员不存在")), w)
    end
  end.
Proof.
  unfold createTeam. run. unfold findTeamByName, findUserById. simpl.
  destruct (team_named _ _) as [t |]; [by rewrite bool_decide_eq_true_2 |].
  rewrite bool_decide_eq_false_2 by (by intros [? ?]).
  destruct (users (store w) !! super_admin_user_id dto) as [r |]; [| done].
  simpl.
  destruct (dto_members dto) as [| i ids] eqn:Hids.
  - simpl. rewrite decide_True by (by rewrite resolve_nil).
    pose proof (transaction_createTeam_work uuid dto
                  (user_of (super_admin_user_id dto) r) w eq_refl) as Htx.
    rewrite Hids, resolve_nil in Htx. rewrite Htx.
    unfold created. rewrite Hids, resolve_nil.
    by destruct (pending w) as [| [? |] [| [? |] ?]].
  - rewrite bool_decide_eq_true_2 by (simpl; lia).
    unfold findUsersByIds. simpl. case_decide as Hlen.
    + rewrite bool_decide_eq_false_2 by (by intros ?).
      pose proof (transaction_createTeam_work uuid dto
                    (user_of (super_admin_user_id dto) r) w eq_refl) as Htx.
      rewrite Hids in Htx. rewrite Htx.
      rewrite tx_writes_resolve by done.
      unfold created. rewrite Hids.
      by destruct (pending w) as [| [? |] [| [? |] [| [? |] ?]]].
    + by rewrite bool_decide_eq_true_2.
Qed.

Lemma teams_created uuid dto s :
  teams (created uuid dto s) =
  <[uuid := mkTeamRow (dto_name dto) (dto_description dto)]> (teams s).
Proof. unfold created. by rewrite teams_put_users. Qed.

(** The user rows after the transaction: the resolved members carry the
    member role, then comes the administrator, and every other row is
    as before. *)
Lemma users_created uuid dto s (k : UserId) :
  users (created uuid dto s) !! k =
  if decide (k ∈ dto_members dto ∧ is_Some (users s !! k))
  then Some (mkUserRow EXTERNAL_MEMBER (Some uuid))
  else if decide (k = super_admin_user_id dto)
       then Some (mkUserRow EXTERNAL_SUPER_ADMIN (Some uuid))
       else users s !! k.
Proof.
  unfold created.
  set (f := λ member : User, mkUser (user_id member) EXTERNAL_MEMBER (Some uuid)).
  assert (Hids : user_id <$> (f <$> resolve (dto_members dto) s)
                 = user_id <$> resolve (dto_members dto) s).
  { rewrite <- list_fmap_compose. by apply list_fmap_ext. }
  case_decide as Hk.
  - apply elem_of_resolve_ids in Hk.
    apply list_elem_of_fmap in Hk as (x & -> & Hx).
    apply (put_users_lookup_in _ _ (f x)).
    + rewrite Hids. apply NoDup_resolve.
    + by apply list_elem_of_fmap_2.
  - rewrite put_users_lookup_notin.
    + simpl. case_decide as Ha.
      * subst k. apply lookup_insert_eq.
      * by rewrite lookup_insert_ne.
    + rewrite Hids. by rewrite elem_of_resolve_ids.
Qed.

(** What a resolved [createTeam] tells about the request. *)
Lemma createTeam_resolved uuid dto w r w' :
  createTeam uuid dto w = (inr r, w') →
  r = None ∧
  validated dto (store w) ∧
  first_fault (tx_writes (dto_members dto)) (pending w) = None ∧
  w' = mkWorld (created uuid dto (store w))
         (drop (tx_writes (dto_members dto)) (pending w)).
Proof.
  rewrite createTeam_run. unfold validated.
  destruct (team_named _ _) as [t |]; [done |].
  destruct (users (store w) !! super_admin_user_id dto) as [a |]; [| done].
  case_decide as Hlen; [| done].
  destruct (first_fault _ _) as [[msg rest] |]; [done |].
  intros [= <- <-]. by eauto.
Qed.

Lemma createTeam_resolves uuid dto w :
  validated dto (store w) →
  first_fault (tx_writes (dto_members dto)) (pending w) = None →
  createTeam uuid dto w =
  (inr None,
   mkWorld (created uuid dto (store w))
     (drop (tx_writes (dto_members dto)) (pending w))).
Proof.
  intros (Hn & [a Ha] & Hlen) Hff.
  rewrite createTeam_run, Hn, Ha, decide_True by done. by rewrite Hff.
Qed.

(** ** Properties of [createTeam] *)


(** The same for every request and whichever write fails first: the
    callback rejects with the error of that write and leaves the writes
    before it in the store. *)
Lemma createTeam_work_interrupted uuid dto superAdmin ms w k msg rest :
  k < tx_writes ms →
  pending w = replicate k None ++ Some msg :: rest →
  createTeam_work uuid dto superAdmin ms w =
  (inl (PersistenceError msg),
   mkWorld
     (match k with
      | 0 => store w
      | 1 => put_team (mkTeam uuid (dto_name dto) (dto_description dto)) (store w)
      | _ => put_user (mkUser (user_id superAdmin) EXTERNAL_SUPER_ADMIN (Some uuid))
               (put_team (mkTeam uuid (dto_name dto) (dto_description dto)) (store w))
      end)
     rest).
Proof.
  destruct w as [s p]. simpl. intros Hk ->.
  unfold tx_writes in Hk. unfold createTeam_work.
  destruct ms as [| m ms]; simpl in Hk.
  - destruct k as [| [| k]]; [done | done | lia].
  - destruct k as [| [| [| k]]]; [done | done | done | lia].
Qed.

(** C2: on the running example every validation passes and no write
    fails; the callback resolves to the success value, with the new team
    and its three members, and [createTeam] itself resolves to
    [undefined]. *)
Theorem createTeam_alpha_resolves_to_undefined :
  fst (createTeam "t1" alpha (mkWorld store0 [])) = inr None ∧
  fst (transaction
         (createTeam_work "t1" alpha (mkUser "u1" (OTHER_ROLE "USER") None)
            (resolve ["u2"; "u3"] store0))
         (mkWorld store0 [])) =
  inr (mkCreateTeamResponse true "团队创建成功"
         (Some (mkTeamWithMembers (mkTeam "t1" "Alpha" (Some "first team"))
                  (members_of "t1" store_alpha)))) ∧
  length (members_of "t1" store_alpha) = 3.
Proof. by vm_compute. Qed.

(** No request makes [createTeam] resolve to anything else. *)
Lemma createTeam_resolves_to_undefined uuid dto w r w' :
  createTeam uuid dto w = (inr r, w') → r = None.
Proof. intros H. by apply createTeam_resolved in H as [? _]. Qed.

(** C3: after a resolved [createTeam] with administrator [u1] and members
    [u2] and [u3], [u1] not among them, where the identifier the storage
    assigned is new (no stored user referred to it): [u1] is the super
    administrator of the new team, [u2] and [u3] are its members, and
    [findOne] on the new identifier returns the team with exactly these
    three users as members, in some order. *)
Theorem createTeam_roles_and_members uuid n d (u1 u2 u3 : UserId) w r w' :
  createTeam uuid (mkCreateTeamDTO n d u1 [u2; u3]) w = (inr r, w') →
  u1 ∉ [u2; u3] →
  (∀ k row, users (store w) !! k = Some row → row_team row ≠ Some uuid) →
  users (store w') !! u1 = Some (mkUserRow EXTERNAL_SUPER_ADMIN (Some uuid)) ∧
  users (store w') !! u2 = Some (mkUserRow EXTERNAL_MEMBER (Some uuid)) ∧
  users (store w') !! u3 = Some (mkUserRow EXTERNAL_MEMBER (Some uuid)) ∧
  ∃ team,
    findOne uuid w' = (inr team, w') ∧
    tm_team team = mkTeam uuid n d ∧
    user_id <$> members team ≡ₚ [u1; u2; u3].
Proof.
  intros H Hu1 Hnew.
  apply createTeam_resolved in H as (_ & (_ & _ & Hlen) & _ & ->). simpl in *.
  apply resolve_length in Hlen as [Hnd Hex].
  assert (Hin : ∀ k, k ∈ [u2; u3] →
            users (created uuid (mkCreateTeamDTO n d u1 [u2; u3]) (store w)) !! k
            = Some (mkUserRow EXTERNAL_MEMBER (Some uuid))).
  { intros k Hk. rewrite users_created. simpl. rewrite decide_True; [done |].
    split; [done | by apply Hex]. }
  assert (Hadm : users (created uuid (mkCreateTeamDTO n d u1 [u2; u3]) (store w)) !! u1
            = Some (mkUserRow EXTERNAL_SUPER_ADMIN (Some uuid))).
  { rewrite users_created. simpl. rewrite decide_False by (by intros [? _]).
    by rewrite decide_True. }
  split; [done |].
  split; [apply Hin, list_elem_of_here |].
  split; [apply Hin, list_elem_of_further, list_elem_of_here |].
  exists (mkTeamWithMembers (mkTeam uuid n d)
            (members_of uuid
               (created uuid (mkCreateTeamDTO n d u1 [u2; u3]) (store w)))).
  split; [| split; [reflexivity |]].
  - unfold findOne, findTeamWithMembers. run.
    by rewrite teams_created, lookup_insert_eq.
  - simpl. apply NoDup_Permutation.
    + eapply sublist_NoDup; [apply NoDup_all_users |].
      apply fmap_sublist, sublist_filter.
    + apply NoDup_cons. split; [done | done].
    + intros k. rewrite list_elem_of_fmap. split.
      * intros (x & -> & Hx). apply list_elem_of_filter in Hx as [Ht Hx].
        apply elem_of_all_users in Hx. rewrite users_created in Hx. simpl in Hx.
        case_decide as Hm; [destruct Hm as [Hm _]; by apply list_elem_of_further |].
        case_decide as Ha; [rewrite Ha; by apply list_elem_of_here |].
        apply Hnew in Hx. by destruct x.
      * intros Hk. apply elem_of_cons in Hk as [-> | Hk].
        -- exists (mkUser u1 EXTERNAL_SUPER_ADMIN (Some uuid)). split; [done |].
           apply list_elem_of_filter. split; [done |]. by apply elem_of_all_users.
        -- exists (mkUser k EXTERNAL_MEMBER (Some uuid)). split; [done |].
           apply list_elem_of_filter. split; [done |].
           apply elem_of_all_users. by apply Hin.
Qed.

Lemma createTeam_roles_and_members_witness :
  users store_alpha !! "u1" = Some (mkUserRow EXTERNAL_SUPER_ADMIN (Some "t1")) ∧
  users store_alpha !! "u2" = Some (mkUserRow EXTERNAL_MEMBER (Some "t1")) ∧
  users store_alpha !! "u3" = Some (mkUserRow EXTERNAL_MEMBER (Some "t1")) ∧
  ∃ team,
    findOne "t1" (mkWorld store_alpha []) = (inr team, mkWorld store_alpha []) ∧
    tm_team team = mkTeam "t1" "Alpha" (Some "first team") ∧
    user_id <$> members team ≡ₚ ["u1"; "u2"; "u3"].
Proof.
  apply (createTeam_roles_and_members "t1" "Alpha" (Some "first team")
           "u1" "u2" "u3" (mkWorld store0 []) None (mkWorld store_alpha [])).
  - by vm_compute.
  - compute_done.
  - intros k row Hk. vm_compute in Hk.
    repeat (case_match; simplify_eq); done.
Defined.

(** C4: the administrator listed among the members is written a second
    time by the batch and ends as [EXTERNAL_MEMBER]. *)
Theorem createTeam_alpha_admin_listed :
  ∃ w',
    createTeam "t1" alpha_admin_listed (mkWorld store0 []) = (inr None, w') ∧
    users (store w') !! "u1" = Some (mkUserRow EXTERNAL_MEMBER (Some "t1")) ∧
    users (store w') !! "u2" = Some (mkUserRow EXTERNAL_MEMBER (Some "t1")).
Proof. eexists. split; [reflexivity | by vm_compute]. Qed.

(** The same on every request: a listed administrator is left as a
    member by a resolved [createTeam]. *)
Lemma createTeam_admin_listed uuid dto w r w' :
  createTeam uuid dto w = (inr r, w') →
  super_admin_user_id dto ∈ dto_members dto →
  users (store w') !! super_admin_user_id dto =
  Some (mkUserRow EXTERNAL_MEMBER (Some uuid)).
Proof.
  intros H Hin.
  apply createTeam_resolved in H as (_ & (_ & Ha & _) & _ & ->). simpl.
  rewrite users_created. by rewrite decide_True.
Qed.

Lemma createTeam_resolved_name_taken uuid dto w r w' :
  createTeam uuid dto w = (inr r, w') → name_taken (dto_name dto) (store w').
Proof.
  intros H. apply createTeam_resolved in H as (_ & _ & _ & ->). simpl.
  exists uuid, (mkTeamRow (dto_name dto) (dto_description dto)).
  by rewrite teams_created, lookup_insert_eq.
Qed.

(** C5: when a stored team has the requested name, as after a resolved
    [createTeam] of that name, [createTeam] rejects with
    [TEAM_ALREADY_EXISTS] and leaves the world as it found it: nothing
    was written. *)
Theorem createTeam_name_taken uuid dto w :
  name_taken (dto_name dto) (store w) ∨
  (∃ uuid0 dto0 w0 r0,
     dto_name dto0 = dto_name dto ∧ createTeam uuid0 dto0 w0 = (inr r0, w)) →
  createTeam uuid dto w =
  (inl (RpcException
          (createGRPCErrorResponse TEAM_ALREADY_EXISTS
             (team_exists_message (dto_name dto)))), w)
  ∧ kind_of TEAM_ALREADY_EXISTS = ALREADY_EXISTS.
Proof.
  intros H. split; [| done].
  assert (Hn : name_taken (dto_name dto) (store w)).
  { destruct H as [H | (uuid0 & dto0 & w0 & r0 & <- & H)]; [done |].
    by eapply createTeam_resolved_name_taken. }
  apply team_named_is_Some in Hn as [t Ht].
  by rewrite createTeam_run, Ht.
Qed.

Lemma createTeam_name_taken_witness :
  createTeam "t2" (mkCreateTeamDTO "Alpha" None "u3" []) (mkWorld store_alpha []) =
  (inl (RpcException
          (createGRPCErrorResponse TEAM_ALREADY_EXISTS "团队名称「 Alpha 」已存在")),
   mkWorld store_alpha [])
  ∧ kind_of TEAM_ALREADY_EXISTS = ALREADY_EXISTS.
Proof.
  apply (createTeam_name_taken "t2" (mkCreateTeamDTO "Alpha" None "u3" [])
           (mkWorld store_alpha [])).
  right. exists "t1", alpha, (mkWorld store0 []), None.
  split; [reflexivity | by vm_compute].
Defined.

(** A name collision is reported before a missing user is looked for. *)
Lemma createTeam_missing_user_name_taken :
  ¬ (∀ uuid dto w,
       missing_user dto (store w) →
       rejects NOT_FOUND (fst (createTeam uuid dto w)) ∧
       snd (createTeam uuid dto w) = w).
Proof.
  intros H.
  destruct (H "t2" (mkCreateTeamDTO "Alpha" None "nobody" ["u2"; "ghost"])
              (mkWorld store_alpha [])) as [(e & He & Hk) _].
  { left. by vm_compute. }
  vm_compute in He. by simplify_eq.
Qed.

(** C6 (amended): when the administrator or one of the listed members is
    not a stored user, [createTeam] rejects and leaves the world as it
    found it; the rejection is [USER_NOT_FOUND] when no stored team has
    the requested name, and [TEAM_ALREADY_EXISTS] when one has. *)
Theorem createTeam_missing_user uuid dto w :
  missing_user dto (store w) →
  snd (createTeam uuid dto w) = w ∧
  (¬ name_taken (dto_name dto) (store w) →
   ∃ msg, fst (createTeam uuid dto w) =
          inl (RpcException (createGRPCErrorResponse USER_NOT_FOUND msg)) ∧
          kind_of USER_NOT_FOUND = NOT_FOUND) ∧
  (name_taken (dto_name dto) (store w) →
   rejects ALREADY_EXISTS (fst (createTeam uuid dto w))).
Proof.
  intros Hmiss. rewrite createTeam_run.
  destruct (team_named _ _) as [t |] eqn:Ht.
  - split; [done |]. split.
    + intros Hn. apply team_named_None in Hn. congruence.
    + intros _. by eexists.
  - assert (Hfree : ¬ name_taken (dto_name dto) (store w)) by by apply team_named_None.
    destruct (users (store w) !! super_admin_user_id dto) as [a |] eqn:Ha.
    + destruct Hmiss as [Hmiss | (k & Hk & Hnone)]; [congruence |].
      rewrite decide_False.
      * split; [done |]. split; [by eauto | by intros ?].
      * intros Hlen. apply resolve_length in Hlen as [_ Hall].
        apply Hall in Hk as [? ?]. congruence.
    + split; [done |]. split; [by eauto | by intros ?].
Qed.

Lemma createTeam_missing_user_witness :
  let dto := mkCreateTeamDTO "Beta" None "u1" ["u2"; "ghost"] in
  let w := mkWorld store_alpha [None] in
  snd (createTeam "t2" dto w) = w ∧
  (¬ name_taken "Beta" store_alpha →
   ∃ msg, fst (createTeam "t2" dto w) =
          inl (RpcException (createGRPCErrorResponse USER_NOT_FOUND msg)) ∧
          kind_of USER_NOT_FOUND = NOT_FOUND) ∧
  (name_taken "Beta" store_alpha →
   rejects ALREADY_EXISTS (fst (createTeam "t2" dto w))).
Proof.
  apply (createTeam_missing_user "t2"
           (mkCreateTeamDTO "Beta" None "u1" ["u2"; "ghost"])
           (mkWorld store_alpha [None])).
  right. exists "ghost". split; [compute_done | by vm_compute].
Defined.

(** A name collision is reported before the members are counted. *)
Lemma createTeam_duplicate_member_name_taken :
  ¬ (∀ uuid dto w,
       ¬ NoDup (dto_members dto) →
       (∀ k, k ∈ dto_members dto → is_Some (users (store w) !! k)) →
       rejects NOT_FOUND (fst (createTeam uuid dto w))).
Proof.
  intros H.
  destruct (H "t2" (mkCreateTeamDTO "Alpha" None "u1" ["u2"; "u2"])
              (mkWorld store_alpha [])) as (e & He & Hk).
  - intros Hnd. apply NoDup_cons in Hnd as [Hnd _]. apply Hnd, list_elem_of_here.
  - intros k Hk. apply elem_of_cons in Hk as [-> | Hk]; [by eexists; vm_compute |].
    apply elem_of_cons in Hk as [-> | Hk]; [by eexists; vm_compute |].
    by apply elem_of_nil in Hk.
  - vm_compute in He. by simplify_eq.
Qed.

(** C10 (amended): when no stored team has the requested name and the
    administrator is a stored user, a member list with a repeated
    identifier makes [createTeam] reject with [USER_NOT_FOUND] and the
    members message: the lookup returns one row per user, fewer rows
    than the list has entries.  Nothing is written. *)
Theorem createTeam_duplicate_member uuid dto w :
  ¬ name_taken (dto_name dto) (store w) →
  is_Some (users (store w) !! super_admin_user_id dto) →
  ¬ NoDup (dto_members dto) →
  NoDup (user_id <$> resolve (dto_members dto) (store w)) ∧
  length (resolve (dto_members dto) (store w)) < length (dto_members dto) ∧
  createTeam uuid dto w =
  (inl (RpcException
          (createGRPCErrorResponse USER_NOT_FOUND "一个或多个团队成员不存在")), w)
  ∧ kind_of USER_NOT_FOUND = NOT_FOUND.
Proof.
  intros Hfree [a Ha] Hdup. apply team_named_None in Hfree.
  assert (Hne : length (resolve (dto_members dto) (store w))
                ≠ length (dto_members dto)).
  { intros Hlen. by apply resolve_length in Hlen as [? _]. }
  split; [apply NoDup_resolve |]. split.
  - pose proof (submseteq_length _ _ (resolve_submseteq (dto_members dto) (store w))) as Hle.
    rewrite length_fmap in Hle. lia.
  - split; [| done]. by rewrite createTeam_run, Hfree, Ha, decide_False.
Qed.

Lemma createTeam_duplicate_member_witness :
  let dto := mkCreateTeamDTO "Beta" None "u1" ["u2"; "u3"; "u2"] in
  let w := mkWorld store_alpha [] in
  NoDup (user_id <$> resolve ["u2"; "u3"; "u2"] store_alpha) ∧
  length (resolve ["u2"; "u3"; "u2"] store_alpha) < 3 ∧
  createTeam "t2" dto w =
  (inl (RpcException
          (createGRPCErrorResponse USER_NOT_FOUND "一个或多个团队成员不存在")), w)
  ∧ kind_of USER_NOT_FOUND = NOT_FOUND.
Proof.
  apply (createTeam_duplicate_member "t2"
           (mkCreateTeamDTO "Beta" None "u1" ["u2"; "u3"; "u2"])
           (mkWorld store_alpha [])).
  - apply team_named_None. by vm_compute.
  - eexists. by vm_compute.
  - intros Hnd. apply NoDup_cons in Hnd as [Hnd _].
    apply Hnd, list_elem_of_further, list_elem_of_here.
Defined.

(** ** Properties of [findAll] and [findOne] *)

Example findAll_empty :
  findAll (mkWorld (mkStore ∅ ∅) []) = (inr [], mkWorld (mkStore ∅ ∅) []).
Proof. reflexivity. Qed.

Lemma findOne_unknown (id : TeamId) (w : World) :
  teams (store w) !! id = None →
  findOne id w =
  (inl (RpcException (createGRPCErrorResponse TEAM_NOT_FOUND "团队未找到")), w).
Proof. intros Hnone. unfold findOne, findTeamWithMembers. run. by rewrite Hnone. Qed.

Lemma findOne_reads_only (id : TeamId) (w : World) : snd (findOne id w) = w.
Proof.
  unfold findOne, findTeamWithMembers. run.
  by destruct (teams (store w) !! id).
Qed.

(** ** Properties of [updateTeam] *)

Lemma updateTeam_run dto w :
  updateTeam dto w =
  match teams (store w) !! upd_id dto with
  | None => (inl (RpcException (createGRPCErrorResponse TEAM_NOT_FOUND "团队未找到")), w)
  | Some row =>
    if truthy (upd_name dto) && bool_decide (upd_name dto ≠ Some (row_name row))
    then
      match team_named (default "" (upd_name dto)) (store w) with
      | Some _ =>
        (inl (RpcException (createGRPCErrorResponse TEAM_NAME_EXISTS "团队名已存在")), w)
      | None => (inr (), w)
      end
    else (inr (), w)
  end.
Proof.
  unfold updateTeam, findTeamById, findTeamByName. run.
  destruct (teams (store w) !! upd_id dto) as [row |]; [| done]. simpl.
  destruct (truthy (upd_name dto) && _); [| done].
  destruct (team_named _ _) as [t |]; [by rewrite bool_decide_eq_true_2 |].
  by rewrite bool_decide_eq_false_2 by (by intros [? ?]).
Qed.

(** The assignments of [updateTeam] do change the fetched object. *)
Lemma updateTeam_assign_name dto team n :
  upd_name dto = Some n → n ≠ "" → team_name (updateTeam_assign dto team) = n.
Proof.
  intros Hn Hne. unfold updateTeam_assign, truthy. rewrite Hn.
  rewrite bool_decide_eq_true_2 by done. by destruct (upd_description dto).
Qed.

(** An empty new name is not looked up. *)
Lemma updateTeam_empty_name_collides :
  ¬ (∀ dto w row n,
       teams (store w) !! upd_id dto = Some row →
       upd_name dto = Some n →
       n ≠ row_name row →
       (∃ id' row',
          id' ≠ upd_id dto ∧ teams (store w) !! id' = Some row' ∧ row_name row' = n) →
       rejects NAME_EXISTS (fst (updateTeam dto w))).
Proof.
  intros H.
  destruct (H (mkUpdateTeamDTO "t1" (Some "") None) (mkWorld store_blank [])
              (mkTeamRow "Alpha" (Some "first team")) "") as (e & He & _).
  - by vm_compute.
  - done.
  - done.
  - exists "t2", (mkTeamRow "" None). split; [done |]. by vm_compute.
  - vm_compute in He. discriminate He.
Qed.

(** C7 (amended): [updateTeam] rejects with [TEAM_NOT_FOUND] when no
    team has the given identifier; it rejects with [TEAM_NAME_EXISTS]
    when the new name is supplied, not empty, different from the stored
    name of the target and the name of a stored team, which is then
    another team.  Either way the world, and with it the stored name of
    the target, is left as it was. *)
Theorem updateTeam_rejections dto w :
  (teams (store w) !! upd_id dto = None →
   updateTeam dto w =
   (inl (RpcException (createGRPCErrorResponse TEAM_NOT_FOUND "团队未找到")), w)
   ∧ kind_of TEAM_NOT_FOUND = NOT_FOUND) ∧
  (∀ row n,
     teams (store w) !! upd_id dto = Some row →
     upd_name dto = Some n →
     n ≠ "" →
     n ≠ row_name row →
     name_taken n (store w) →
     updateTeam dto w =
     (inl (RpcException (createGRPCErrorResponse TEAM_NAME_EXISTS "团队名已存在")), w)
     ∧ kind_of TEAM_NAME_EXISTS = NAME_EXISTS
     ∧ row_name <$> teams (store (snd (updateTeam dto w))) !! upd_id dto
       = Some (row_name row)).
Proof.
  split.
  - intros Hnone. by rewrite updateTeam_run, Hnone.
  - intros row n Hrow Hn Hne Hdiff Htaken.
    apply team_named_is_Some in Htaken as [t Ht].
    rewrite updateTeam_run, Hrow, Hn. simpl.
    rewrite !bool_decide_eq_true_2 by congruence. simpl.
    rewrite Ht. simpl. by rewrite Hrow.
Qed.

Lemma updateTeam_rejections_witness :
  (updateTeam (mkUpdateTeamDTO "t9" (Some "Gamma") None) (mkWorld store_blank []) =
   (inl (RpcException (createGRPCErrorResponse TEAM_NOT_FOUND "团队未找到")),
    mkWorld store_blank [])
   ∧ kind_of TEAM_NOT_FOUND = NOT_FOUND) ∧
  (updateTeam (mkUpdateTeamDTO "t2" (Some "Alpha") None) (mkWorld store_blank []) =
   (inl (RpcException (createGRPCErrorResponse TEAM_NAME_EXISTS "团队名已存在")),
    mkWorld store_blank [])
   ∧ kind_of TEAM_NAME_EXISTS = NAME_EXISTS
   ∧ row_name <$>
       teams (store (snd (updateTeam (mkUpdateTeamDTO "t2" (Some "Alpha") None)
                            (mkWorld store_blank [])))) !! "t2"
     = Some "").
Proof.
  split.
  - apply (updateTeam_rejections (mkUpdateTeamDTO "t9" (Some "Gamma") None)
             (mkWorld store_blank [])).
    by vm_compute.
  - apply (proj2 (updateTeam_rejections (mkUpdateTeamDTO "t2" (Some "Alpha") None)
                    (mkWorld store_blank []))
             (mkTeamRow "" None) "Alpha").
    + by vm_compute.
    + done.
    + done.
    + done.
    + exists "t1", (mkTeamRow "Alpha" (Some "first team")). by vm_compute.
Defined.

(** C8: an [updateTeam] that resolves resolves to [undefined] and leaves
    the world as it found it: the new name and description go to the
    fetched object only, no row of any team or user changes and nothing
    is written. *)
Theorem updateTeam_persists_nothing dto w (v : ()) w' :
  updateTeam dto w = (inr v, w') →
  v = () ∧
  w' = w ∧
  ∃ row,
    teams (store w') !! upd_id dto = Some row ∧
    (∀ n, upd_name dto = Some n → n ≠ "" →
          team_name (updateTeam_assign dto (team_of (upd_id dto) row)) = n) ∧
    (∀ d, upd_description dto = Some d →
          team_description (updateTeam_assign dto (team_of (upd_id dto) row)) = Some d).
Proof.
  rewrite updateTeam_run.
  destruct (teams (store w) !! upd_id dto) as [row |] eqn:Hrow; [| done].
  intros H.
  assert (Hw : w' = w).
  { destruct (truthy (upd_name dto) && _); [| by simplify_eq].
    destruct (team_named _ _); by simplify_eq. }
  subst w'. split; [by destruct v |]. split; [done |].
  exists row. split; [done |]. split.
  - intros n Hn Hne. by apply updateTeam_assign_name.
  - intros d Hd. unfold updateTeam_assign. by rewrite Hd.
Qed.

Lemma updateTeam_persists_nothing_witness :
  let dto := mkUpdateTeamDTO "t1" (Some "Gamma") (Some "renamed") in
  let w := mkWorld store_alpha [None] in
  () = () ∧
  w = w ∧
  ∃ row,
    teams store_alpha !! "t1" = Some row ∧
    (∀ n, Some "Gamma" = Some n → n ≠ "" →
          team_name (updateTeam_assign dto (team_of "t1" row)) = n) ∧
    (∀ d, Some "renamed" = Some d →
          team_description (updateTeam_assign dto (team_of "t1" row)) = Some d).
Proof.
  apply (updateTeam_persists_nothing
           (mkUpdateTeamDTO "t1" (Some "Gamma") (Some "renamed"))
           (mkWorld store_alpha [None]) () (mkWorld store_alpha [None])).
  by vm_compute.
Defined.

(** ** Properties of [deleteTeam] *)

(** The loop saves the members one at a time, in order: each takes one
    entry of the script. *)
Lemma detach_members_run (ms : list User) (w : World) :
  first_fault (length ms) (pending w) = None →
  detach_members ms w =
  (inr (), mkWorld (put_users (detached <$> ms) (store w))
             (drop (length ms) (pending w))).
Proof.
  revert w. induction ms as [| m ms IH]; intros [s p] Hff.
  - done.
  - change (length (m :: ms)) with (1 + length ms) in Hff.
    apply first_fault_add_None in Hff as [H1 Hrest]. simpl in H1, Hrest.
    simpl. run. unfold saveUser. rewrite persist_run. simpl. rewrite H1.
    rewrite IH by done. simpl. by rewrite drop_drop.
Qed.

(** A failing save leaves the loop where it stands: the members before
    it are detached, the others and the team row are as they were. *)
Lemma detach_members_fault (ms1 ms2 : list User) (m : User) (w : World) msg rest :
  pending w = replicate (length ms1) None ++ Some msg :: rest →
  detach_members (ms1 ++ m :: ms2) w =
  (inl (PersistenceError msg),
   mkWorld (put_users (detached <$> ms1) (store w)) rest).
Proof.
  revert w. induction ms1 as [| m1 ms1 IH]; intros [s p] Hp; simpl in Hp; subst p.
  - done.
  - simpl. run. unfold saveUser, persist. simpl.
    by rewrite (IH (mkWorld _ _)).
Qed.

Lemma NoDup_members_of (id : TeamId) (s : Store) :
  NoDup (user_id <$> members_of id s).
Proof.
  eapply sublist_NoDup; [apply NoDup_all_users |].
  apply fmap_sublist, sublist_filter.
Qed.

Lemma elem_of_members_of (id : TeamId) (s : Store) (x : User) :
  x ∈ members_of id s ↔
  users s !! user_id x = Some (row_of_user x) ∧ user_team x = Some id.
Proof.
  unfold members_of. rewrite list_elem_of_filter, elem_of_all_users. tauto.
Qed.

Lemma deleteTeam_run id w row :
  teams (store w) !! id = Some row →
  first_fault (S (length (members_of id (store w)))) (pending w) = None →
  deleteTeam id w =
  (inr (),
   mkWorld (drop_team id (put_users (detached <$> members_of id (store w)) (store w)))
     (drop (S (length (members_of id (store w)))) (pending w))).
Proof.
  intros Hrow Hff.
  rewrite <- Nat.add_1_r in Hff. apply first_fault_add_None in Hff as [Hloop Hrm].
  unfold deleteTeam, findOne, findTeamWithMembers. run. rewrite Hrow. simpl.
  rewrite detach_members_run by done.
  unfold removeTeam. rewrite persist_run. cbn [store pending]. rewrite Hrm.
  by rewrite drop_drop, Nat.add_1_r.
Qed.

(** C9: when no team has the identifier, [deleteTeam] rejects with the
    [TEAM_NOT_FOUND] of [findOne] and leaves the world as it found it.
    When a team has it and none of the writes fails, [deleteTeam]
    resolves after it has saved every member, one at a time, without a
    team and has then removed the team row, so that [findOne] on the
    identifier rejects with [TEAM_NOT_FOUND]. *)
Theorem deleteTeam_detaches_then_removes id w :
  (teams (store w) !! id = None →
   findOne id w =
   (inl (RpcException (createGRPCErrorResponse TEAM_NOT_FOUND "团队未找到")), w) ∧
   deleteTeam id w =
   (inl (RpcException (createGRPCErrorResponse TEAM_NOT_FOUND "团队未找到")), w)
   ∧ kind_of TEAM_NOT_FOUND = NOT_FOUND) ∧
  (∀ row,
     teams (store w) !! id = Some row →
     first_fault (S (length (members_of id (store w)))) (pending w) = None →
     ∃ w', deleteTeam id w = (inr (), w') ∧ detached_and_removed id w w').
Proof.
  split.
  - intros Hnone. unfold deleteTeam, findOne, findTeamWithMembers. run.
    by rewrite Hnone.
  - intros row Hrow Hff. eexists. split; [by eapply deleteTeam_run |].
    unfold detached_and_removed. simpl.
    set (ms := members_of id (store w)).
    assert (Hids : user_id <$> (detached <$> ms) = user_id <$> ms).
    { rewrite <- list_fmap_compose. by apply list_fmap_ext. }
    assert (Hin : ∀ m, m ∈ ms →
              users (put_users (detached <$> ms) (store w)) !! user_id m
              = Some (mkUserRow (user_role m) None)).
    { intros m Hm. apply (put_users_lookup_in _ _ (detached m)).
      - rewrite Hids. apply NoDup_members_of.
      - by apply list_elem_of_fmap_2. }
    assert (Hout : ∀ k, k ∉ user_id <$> ms →
              users (put_users (detached <$> ms) (store w)) !! k
              = users (store w) !! k).
    { intros k Hk. apply put_users_lookup_notin. by rewrite Hids. }
    split; [done |]. split; [done |]. split; [done |].
    split; [by rewrite teams_put_users |]. split.
    + apply elem_of_nil_inv. intros x Hx.
      apply elem_of_members_of in Hx as [Hx Ht]. simpl in Hx.
      destruct (decide (user_id x ∈ user_id <$> ms)) as [Hk | Hk].
      * apply list_elem_of_fmap in Hk as (m & Hid & Hm).
        rewrite Hid, Hin in Hx by done. destruct x; simplify_eq/=.
      * rewrite Hout in Hx by done. apply Hk, list_elem_of_fmap_2.
        by apply elem_of_members_of.
    + unfold findOne, findTeamWithMembers. run.
      by rewrite teams_put_users, lookup_delete_eq.
Qed.

Lemma deleteTeam_detaches_then_removes_witness :
  (deleteTeam "t9" (mkWorld store_alpha []) =
   (inl (RpcException (createGRPCErrorResponse TEAM_NOT_FOUND "团队未找到")),
    mkWorld store_alpha [])) ∧
  ∃ w',
    deleteTeam "t1" (mkWorld store_alpha [None]) = (inr (), w') ∧
    detached_and_removed "t1" (mkWorld store_alpha [None]) w'.
Proof.
  split.
  - apply (deleteTeam_detaches_then_removes "t9" (mkWorld store_alpha [])).
    by vm_compute.
  - apply (proj2 (deleteTeam_detaches_then_removes "t1" (mkWorld store_alpha [None]))
             (mkTeamRow "Alpha" (Some "first team"))).
    + by vm_compute.
    + by vm_compute.
Defined.

(** On the running example the three users end without a team and with
    the roles the creation gave them. *)
Example deleteTeam_alpha :
  ∃ w',
    deleteTeam "t1" (mkWorld store_alpha []) = (inr (), w') ∧
    teams (store w') = ∅ ∧
    users (store w') !! "u1" = Some (mkUserRow EXTERNAL_SUPER_ADMIN None) ∧
    users (store w') !! "u2" = Some (mkUserRow EXTERNAL_MEMBER None) ∧
    users (store w') !! "u3" = Some (mkUserRow EXTERNAL_MEMBER None).
Proof. eexists. split; [reflexivity | by vm_compute]. Qed.

(** ** Reading a team: [findOne] *)

(** X1: [findOne] never writes.  It rejects with [TEAM_NOT_FOUND] when no
    team row has the identifier; otherwise it resolves to that row with,
    as members, the users whose team reference is the identifier, each
    of them once. *)
Theorem findOne_team_and_members (id : TeamId) (w : World) :
  snd (findOne id w) = w ∧
  match teams (store w) !! id with
  | None =>
    fst (findOne id w) =
    inl (RpcException (createGRPCErrorResponse TEAM_NOT_FOUND "团队未找到"))
  | Some row =>
    ∃ team,
      fst (findOne id w) = inr team ∧
      tm_team team = mkTeam id (row_name row) (row_description row) ∧
      NoDup (user_id <$> members team) ∧
      ∀ x, x ∈ members team ↔
           users (store w) !! user_id x = Some (row_of_user x) ∧
           user_team x = Some id
  end.
Proof.
  unfold findOne, findTeamWithMembers. run.
  destruct (teams (store w) !! id) as [row |]; simpl; [| done].
  split; [done |]. eexists. split; [reflexivity |]. simpl.
  split; [done |]. split; [apply NoDup_members_of |].
  intros x. apply elem_of_members_of.
Qed.

(** ** More on [createTeam] *)

(** What a rejected [createTeam] tells about the request. *)
Lemma createTeam_rejected uuid dto w t w' :
  createTeam uuid dto w = (inl t, w') →
  (is_Some (team_named (dto_name dto) (store w)) ∧ w' = w ∧
   t = RpcException (createGRPCErrorResponse TEAM_ALREADY_EXISTS
                       (team_exists_message (dto_name dto)))) ∨
  (team_named (dto_name dto) (store w) = None ∧ w' = w ∧
   users (store w) !! super_admin_user_id dto = None ∧
   t = RpcException (createGRPCErrorResponse USER_NOT_FOUND "用户不存在")) ∨
  (team_named (dto_name dto) (store w) = None ∧ w' = w ∧
   is_Some (users (store w) !! super_admin_user_id dto) ∧
   length (resolve (dto_members dto) (store w)) ≠ length (dto_members dto) ∧
   t = RpcException (createGRPCErrorResponse USER_NOT_FOUND "一个或多个团队成员不存在")) ∨
  (validated dto (store w) ∧
   ∃ cause,
     first_fault (tx_writes (dto_members dto)) (pending w)
     = Some (cause, pending w') ∧
     store w' = store w ∧
     t = RpcException (createGRPCErrorResponse CREATE_TEAM_FAILURE
                         (or_default cause "创建团队失败"))).
Proof.
  rewrite createTeam_run. unfold validated.
  destruct (team_named _ _) as [team |] eqn:Hn.
  { intros [= <- <-]. left. by eauto. }
  destruct (users (store w) !! super_admin_user_id dto) as [a |] eqn:Ha.
  2: { intros [= <- <-]. right; left. by eauto. }
  case_decide as Hlen.
  2: { intros [= <- <-]. right; right; left. by eauto 10. }
  destruct (first_fault _ _) as [[cause rest] |]; [| done].
  intros [= <- <-]. right; right; right. by eauto 10.
Qed.

(** X3: what the code of an [RpcException] of [createTeam] tells the
    caller.  [TEAM_ALREADY_EXISTS]: a stored team has the name and
    nothing was written.  [USER_NOT_FOUND]: no stored team has the name,
    the administrator or a member is not a stored user or a member is
    listed twice, and nothing was written.  [CREATE_TEAM_FAILURE]: the
    three validations had passed.  The other two codes are never used. *)
Theorem createTeam_rejection_causes uuid dto w e w' :
  createTeam uuid dto w = (inl (RpcException e), w') →
  match err_code e with
  | TEAM_ALREADY_EXISTS =>
    name_taken (dto_name dto) (store w) ∧ w' = w ∧
    err_message e = team_exists_message (dto_name dto)
  | USER_NOT_FOUND =>
    ¬ name_taken (dto_name dto) (store w) ∧ w' = w ∧
    ¬ (NoDup (dto_members dto) ∧
       ∀ k, k ∈ named_users dto → is_Some (users (store w) !! k))
  | CREATE_TEAM_FAILURE =>
    ¬ name_taken (dto_name dto) (store w) ∧
    NoDup (dto_members dto) ∧
    ∀ k, k ∈ named_users dto → is_Some (users (store w) !! k)
  | TEAM_NOT_FOUND | TEAM_NAME_EXISTS => False
  end.
Proof.
  intros H. apply createTeam_rejected in H
    as [(Hn & -> & He) | [(Hn & -> & Ha & He) | [(Hn & -> & Ha & Hlen & He)
        | ((Hn & Ha & Hlen) & cause & _ & _ & He)]]];
    injection He as ->; simpl.
  - split; [by apply team_named_is_Some | done].
  - split; [by apply team_named_None |]. split; [done |].
    intros [_ Hall]. destruct (Hall (super_admin_user_id dto)) as [a Ha'].
    + apply list_elem_of_here.
    + congruence.
  - split; [by apply team_named_None |]. split; [done |].
    intros [Hnd Hall]. apply Hlen, resolve_length. split; [done |].
    intros k Hk. by apply Hall, list_elem_of_further.
  - apply resolve_length in Hlen as [Hnd Hall].
    split; [by apply team_named_None |]. split; [done |].
    intros k [-> | Hk]%elem_of_cons; [done | by apply Hall].
Qed.

Lemma createTeam_rejection_causes_witness :
  ¬ name_taken "Gamma" store_beta ∧
  mkWorld store_beta [None] = mkWorld store_beta [None] ∧
  ¬ (NoDup ["u2"; "u2"] ∧
     ∀ k, k ∈ ["u1"; "u2"; "u2"] → is_Some (users store_beta !! k)).
Proof.
  apply (createTeam_rejection_causes "t3"
           (mkCreateTeamDTO "Gamma" None "u1" ["u2"; "u2"])
           (mkWorld store_beta [None])
           (createGRPCErrorResponse USER_NOT_FOUND "一个或多个团队成员不存在")
           (mkWorld store_beta [None])).
  by vm_compute.
Defined.

(** X4: [createTeam] resolves only if no stored team has the name, the
    administrator and every member are stored users, no member is
    listed twice and none of the writes of the transaction has failed. *)
Theorem createTeam_resolves_only_if uuid dto w r w' :
  createTeam uuid dto w = (inr r, w') →
  ¬ name_taken (dto_name dto) (store w) ∧
  NoDup (dto_members dto) ∧
  (∀ k, k ∈ named_users dto → is_Some (users (store w) !! k)) ∧
  first_fault (tx_writes (dto_members dto)) (pending w) = None.
Proof.
  intros H.
  apply createTeam_resolved in H as (_ & (Hn & Ha & Hlen) & Hff & _).
  apply resolve_length in Hlen as [Hnd Hall].
  split; [by apply team_named_None |]. split; [done |]. split; [| done].
  intros k [-> | Hk]%elem_of_cons; [done | by apply Hall].
Qed.

Lemma createTeam_resolves_only_if_witness :
  ¬ name_taken "Beta" store_alpha ∧
  NoDup ["u2"] ∧
  (∀ k, k ∈ ["u3"; "u2"] → is_Some (users store_alpha !! k)) ∧
  first_fault 3 [] = None.
Proof.
  apply (createTeam_resolves_only_if "t2" (mkCreateTeamDTO "Beta" None "u3" ["u2"])
           (mkWorld store_alpha []) None (mkWorld store_beta [])).
  by vm_compute.
Defined.

(** X5: what a resolved [createTeam] has written.  The team table gained
    the row of the new team and nothing else changed in it; every listed
    member is an [EXTERNAL_MEMBER] of the new team; the administrator,
    unless listed, is its [EXTERNAL_SUPER_ADMIN]; every other user row
    is as it was. *)
Theorem createTeam_writes uuid dto w r w' :
  createTeam uuid dto w = (inr r, w') →
  teams (store w') =
    <[uuid := mkTeamRow (dto_name dto) (dto_description dto)]> (teams (store w)) ∧
  (∀ k, k ∈ dto_members dto →
        users (store w') !! k = Some (mkUserRow EXTERNAL_MEMBER (Some uuid))) ∧
  (super_admin_user_id dto ∉ dto_members dto →
   users (store w') !! super_admin_user_id dto
   = Some (mkUserRow EXTERNAL_SUPER_ADMIN (Some uuid))) ∧
  (∀ k, k ∉ named_users dto → users (store w') !! k = users (store w) !! k) ∧
  pending w' = drop (tx_writes (dto_members dto)) (pending w).
Proof.
  intros H. apply createTeam_resolved in H as (_ & (_ & _ & Hlen) & _ & ->).
  apply resolve_length in Hlen as [_ Hall]. simpl.
  split; [apply teams_created |]. split; [| split; [| split; [| done]]].
  - intros k Hk. rewrite users_created, decide_True; [done |].
    split; [done | by apply Hall].
  - intros Ha. rewrite users_created, decide_False by (by intros [? _]).
    by rewrite decide_True.
  - intros k [Hne Hk]%not_elem_of_cons.
    rewrite users_created, decide_False by (by intros [? _]).
    by rewrite decide_False.
Qed.

Lemma createTeam_writes_witness :
  teams store_beta = <[ "t2" := mkTeamRow "Beta" None ]> (teams store_alpha) ∧
  (∀ k, k ∈ ["u2"] →
        users store_beta !! k = Some (mkUserRow EXTERNAL_MEMBER (Some "t2"))) ∧
  ("u3" ∉ ["u2"] →
   users store_beta !! "u3" = Some (mkUserRow EXTERNAL_SUPER_ADMIN (Some "t2"))) ∧
  (∀ k, k ∉ ["u3"; "u2"] → users store_beta !! k = users store_alpha !! k) ∧
  @nil (option string) = drop 3 [].
Proof.
  apply (createTeam_writes "t2" (mkCreateTeamDTO "Beta" None "u3" ["u2"])
           (mkWorld store_alpha []) None (mkWorld store_beta [])).
  by vm_compute.
Defined.

(** X6: after a resolved [createTeam] whose new identifier no stored user
    referred to, [findOne] on that identifier resolves to the new team
    and its members are the administrator and the listed members, each
    of them once. *)
Theorem createTeam_then_findOne uuid dto w r w' :
  createTeam uuid dto w = (inr r, w') →
  (∀ k row, users (store w) !! k = Some row → row_team row ≠ Some uuid) →
  ∃ team,
    findOne uuid w' = (inr team, w') ∧
    tm_team team = mkTeam uuid (dto_name dto) (dto_description dto) ∧
    NoDup (user_id <$> members team) ∧
    ∀ k, k ∈ user_id <$> members team ↔ k ∈ named_users dto.
Proof.
  intros H Hnew.
  apply createTeam_resolved in H as (_ & (_ & Ha & Hlen) & _ & ->).
  apply resolve_length in Hlen as [_ Hall].
  exists (mkTeamWithMembers (mkTeam uuid (dto_name dto) (dto_description dto))
            (members_of uuid (created uuid dto (store w)))).
  split; [| split; [done | split; [apply NoDup_members_of |]]].
  - unfold findOne, findTeamWithMembers. run.
    by rewrite teams_created, lookup_insert_eq.
  - intros k. simpl. rewrite list_elem_of_fmap. split.
    + intros (x & -> & [Hx Ht]%elem_of_members_of).
      rewrite users_created in Hx.
      case_decide as Hm; [destruct Hm as [Hm _]; by apply list_elem_of_further |].
      case_decide as Hadm; [rewrite Hadm; apply list_elem_of_here |].
      apply Hnew in Hx. by destruct x.
    + intros Hk.
      destruct (decide (k ∈ dto_members dto)) as [Hm | Hm].
      * exists (mkUser k EXTERNAL_MEMBER (Some uuid)). split; [done |].
        apply elem_of_members_of. split; [| done]. simpl.
        rewrite users_created, decide_True; [done |].
        split; [done | by apply Hall].
      * apply elem_of_cons in Hk as [-> | Hk]; [| done].
        exists (mkUser (super_admin_user_id dto) EXTERNAL_SUPER_ADMIN (Some uuid)).
        split; [done |]. apply elem_of_members_of. split; [| done]. simpl.
        rewrite users_created, decide_False by (by intros [? _]).
        by rewrite decide_True.
Qed.

Lemma createTeam_then_findOne_witness :
  ∃ team,
    findOne "t2" (mkWorld store_beta []) = (inr team, mkWorld store_beta []) ∧
    tm_team team = mkTeam "t2" "Beta" None ∧
    NoDup (user_id <$> members team) ∧
    ∀ k, k ∈ user_id <$> members team ↔ k ∈ ["u3"; "u2"].
Proof.
  apply (createTeam_then_findOne "t2" (mkCreateTeamDTO "Beta" None "u3" ["u2"])
           (mkWorld store_alpha []) None (mkWorld store_beta [])).
  - by vm_compute.
  - intros k row Hk. vm_compute in Hk.
    repeat (case_match; simplify_eq); done.
Defined.

(** X7: [createTeam] does not look at the team its users are in: after a
    resolved call, the members of any other team are the ones it had
    that the request does not name.  A named user leaves the team it was
    in. *)
Theorem createTeam_takes_users_over uuid dto w r w' (other : TeamId) (x : User) :
  createTeam uuid dto w = (inr r, w') →
  other ≠ uuid →
  x ∈ members_of other (store w') ↔
  x ∈ members_of other (store w) ∧ user_id x ∉ named_users dto.
Proof.
  intros H Hother.
  apply createTeam_resolved in H as (_ & (_ & Ha & Hlen) & _ & ->).
  apply resolve_length in Hlen as [_ Hall]. simpl.
  rewrite !elem_of_members_of, users_created. split.
  - intros [Hx Ht].
    case_decide as Hm; [destruct x; unfold row_of_user in Hx; by simplify_eq/= |].
    case_decide as Hadm; [destruct x; unfold row_of_user in Hx; by simplify_eq/= |].
    split; [done |]. apply not_elem_of_cons. split; [done |].
    intros Hk. apply Hm. split; [done | by apply Hall].
  - intros [[Hx Ht] [Hadm Hm]%not_elem_of_cons].
    rewrite decide_False by (by intros [? _]). by rewrite decide_False.
Qed.

Lemma createTeam_takes_users_over_witness :
  mkUser "u1" EXTERNAL_SUPER_ADMIN (Some "t1") ∈ members_of "t1" store_beta ↔
  mkUser "u1" EXTERNAL_SUPER_ADMIN (Some "t1") ∈ members_of "t1" store_alpha ∧
  "u1" ∉ ["u3"; "u2"].
Proof.
  apply (createTeam_takes_users_over "t2" (mkCreateTeamDTO "Beta" None "u3" ["u2"])
           (mkWorld store_alpha []) None (mkWorld store_beta []) "t1").
  - by vm_compute.
  - done.
Defined.

(** The team of the running example has lost the two users that the
    second team named. *)
Example createTeam_beta_empties_alpha :
  user_id <$> members_of "t1" store_alpha ≡ₚ ["u1"; "u2"; "u3"] ∧
  user_id <$> members_of "t1" store_beta = ["u1"] ∧
  users store_beta !! "u3" = Some (mkUserRow EXTERNAL_SUPER_ADMIN (Some "t2")).
Proof.
  split; [| by vm_compute]. vm_compute.
  apply NoDup_Permutation; [| | intros k; split]; try (by compute_done).
  - intros Hk. repeat (apply elem_of_cons in Hk as [-> | Hk]); try compute_done.
    by apply elem_of_nil in Hk.
  - intros Hk. repeat (apply elem_of_cons in Hk as [-> | Hk]); try compute_done.
    by apply elem_of_nil in Hk.
Qed.

(** X8: [createTeam] keeps team names unique, whatever its outcome. *)
Theorem createTeam_keeps_names_unique uuid dto w r w' :
  createTeam uuid dto w = (r, w') →
  unique_names (store w) → unique_names (store w').
Proof.
  intros H Hu. destruct r as [t | r].
  - apply createTeam_rejected in H
      as [(_ & -> & _) | [(_ & -> & _) | [(_ & -> & _) | (_ & c & _ & -> & _)]]];
      done.
  - apply createTeam_resolved in H as (_ & (Hn & _) & _ & ->). simpl.
    apply team_named_None in Hn.
    intros i j ri rj. rewrite teams_created.
    rewrite !lookup_insert. repeat case_decide; intros; simplify_eq/=; try done.
    + exfalso. apply Hn. by eexists _, _.
    + exfalso. apply Hn. by eexists _, _.
    + by eapply Hu.
Qed.

Lemma createTeam_keeps_names_unique_witness :
  unique_names store_beta.
Proof.
  apply (createTeam_keeps_names_unique "t2" (mkCreateTeamDTO "Beta" None "u3" ["u2"])
           (mkWorld store_alpha []) (inr None) (mkWorld store_beta [])).
  - by vm_compute.
  - apply (createTeam_keeps_names_unique "t1" alpha
             (mkWorld store0 []) (inr None) (mkWorld store_alpha [])).
    + by vm_compute.
    + intros i j ri rj Hi. by vm_compute in Hi.
Defined.

(** X9: [createTeam] keeps every team reference of a user on a stored
    team, whatever its outcome. *)
Theorem createTeam_keeps_references uuid dto w r w' :
  createTeam uuid dto w = (r, w') →
  references_stored (store w) → references_stored (store w').
Proof.
  intros H Hrefs. destruct r as [t | r].
  - apply createTeam_rejected in H
      as [(_ & -> & _) | [(_ & -> & _) | [(_ & -> & _) | (_ & c & _ & -> & _)]]];
      done.
  - apply createTeam_resolved in H as (_ & _ & _ & ->). simpl.
    intros k row t Hk Ht. rewrite teams_created.
    rewrite users_created in Hk.
    destruct (decide (t = uuid)) as [-> | Hne]; [by rewrite lookup_insert_eq |].
    rewrite lookup_insert_ne by done.
    repeat case_decide; simplify_eq/=; try done.
    by eapply Hrefs.
Qed.

Lemma createTeam_keeps_references_witness :
  references_stored store_alpha.
Proof.
  apply (createTeam_keeps_references "t1" alpha
           (mkWorld store0 []) (inr None) (mkWorld store_alpha [])).
  - by vm_compute.
  - intros k row t Hk Ht. vm_compute in Hk.
    repeat (case_match; simplify_eq); done.
Defined.

(** ** More on [deleteTeam] *)

(** The rows after the loop of [deleteTeam] has saved [ms]. *)
Lemma users_put_detached (ms : list User) (s : Store) :
  NoDup (user_id <$> ms) →
  (∀ m, m ∈ ms →
        users (put_users (detached <$> ms) s) !! user_id m
        = Some (mkUserRow (user_role m) None)) ∧
  (∀ k, k ∉ user_id <$> ms →
        users (put_users (detached <$> ms) s) !! k = users s !! k).
Proof.
  intros Hnd.
  assert (Hids : user_id <$> (detached <$> ms) = user_id <$> ms).
  { rewrite <- list_fmap_compose. by apply list_fmap_ext. }
  split.
  - intros m Hm. apply (put_users_lookup_in _ _ (detached m)).
    + by rewrite Hids.
    + by apply list_elem_of_fmap_2.
  - intros k Hk. apply put_users_lookup_notin. by rewrite Hids.
Qed.

(** Whatever the script, the loop leaves the team table alone and every
    user row either as it was or without a team. *)
Lemma detach_members_rows (ms : list User) (w : World) r w1 :
  detach_members ms w = (r, w1) →
  teams (store w1) = teams (store w) ∧
  (∀ k row, users (store w1) !! k = Some row →
            row_team row = None ∨ users (store w) !! k = Some row) ∧
  (r = inr () →
   store w1 = put_users (detached <$> ms) (store w) ∧
   pending w1 = drop (length ms) (pending w)).
Proof.
  revert w. induction ms as [| m ms IH]; intros [s p] H.
  - injection H as <- <-. by eauto.
  - simpl in H. revert H. run. unfold saveUser, persist. simpl.
    destruct p as [| [msg |] p]; simpl.
    + intros H. apply IH in H as (Ht & Hrows & Hok). simpl in *.
      split; [done |]. split.
      * intros k row Hk. apply Hrows in Hk as [Hk | Hk]; [by left |].
        destruct (decide (user_id m = k)) as [<- | Hne].
        -- rewrite lookup_insert_eq in Hk. left. by simplify_eq.
        -- rewrite lookup_insert_ne in Hk by done. by right.
      * intros Hr. destruct (Hok Hr) as [-> ->]. by rewrite drop_nil.
    + intros [= <- <-]. simpl. split; [done |]. split; [by eauto | done].
    + intros H. apply IH in H as (Ht & Hrows & Hok). simpl in *.
      split; [done |]. split.
      * intros k row Hk. apply Hrows in Hk as [Hk | Hk]; [by left |].
        destruct (decide (user_id m = k)) as [<- | Hne].
        -- rewrite lookup_insert_eq in Hk. left. by simplify_eq.
        -- rewrite lookup_insert_ne in Hk by done. by right.
      * intros Hr. by destruct (Hok Hr) as [-> ->].
Qed.

(** The loop has no [catch]: what it throws is the error of a save. *)
Lemma detach_members_throws (ms : list User) (w : World) t w1 :
  detach_members ms w = (inl t, w1) → ∃ msg, t = PersistenceError msg.
Proof.
  revert w. induction ms as [| m ms IH]; intros [s p]; [done |].
  simpl. run. unfold saveUser, persist. simpl.
  destruct p as [| [msg |] p]; simpl.
  - apply IH.
  - intros [= <- <-]. by eauto.
  - apply IH.
Qed.

(** The three ways [deleteTeam] can go once the team is found. *)
Lemma deleteTeam_cases (id : TeamId) (w : World) r w' :
  deleteTeam id w = (r, w') →
  (teams (store w) !! id = None ∧ w' = w ∧
   r = inl (RpcException (createGRPCErrorResponse TEAM_NOT_FOUND "团队未找到"))) ∨
  ∃ row r1 w1,
    teams (store w) !! id = Some row ∧
    detach_members (members_of id (store w)) w = (r1, w1) ∧
    ((∃ msg, r = inl (PersistenceError msg) ∧ store w' = store w1) ∨
     (r1 = inr () ∧ r = inr () ∧
      store w' = drop_team id (store w1) ∧ pending w' = drop 1 (pending w1))).
Proof.
  unfold deleteTeam, findOne, findTeamWithMembers. run.
  destruct (teams (store w) !! id) as [row |] eqn:Hrow; simpl.
  2: { intros [= <- <-]. by left. }
  destruct (detach_members _ w) as [[t | []] w1] eqn:Hloop.
  - intros [= <- <-]. right. exists row, (inl t), w1.
    split; [done |]. split; [done |]. left.
    apply detach_members_throws in Hloop as [msg ->]. by eauto.
  - unfold removeTeam. rewrite persist_run. cbn [store pending tm_team team_id].
    destruct (first_fault 1 (pending w1)) as [[msg rest] |] eqn:Hff.
    + intros [= <- <-]. right. exists row, (inr ()), w1.
      split; [done |]. split; [done |]. left. by eauto.
    + intros [= <- <-]. right. exists row, (inr ()), w1.
      split; [done |]. split; [done |]. right. done.
Qed.

Lemma deleteTeam_resolved (id : TeamId) (w w' : World) :
  deleteTeam id w = (inr (), w') →
  is_Some (teams (store w) !! id) ∧
  store w' =
    drop_team id (put_users (detached <$> members_of id (store w)) (store w)) ∧
  pending w' = drop (S (length (members_of id (store w)))) (pending w).
Proof.
  intros H. apply deleteTeam_cases in H
    as [(_ & _ & ?) | (row & r1 & w1 & Hrow & Hloop & [(? & ? & _) | (-> & _ & Hs & Hp)])];
    [done | done |].
  apply detach_members_rows in Hloop as (_ & _ & Hok).
  destruct (Hok eq_refl) as [Hs1 Hp1].
  split; [by eexists |]. rewrite Hs, Hs1, Hp, Hp1. split; [done |].
  by rewrite drop_drop, Nat.add_1_r.
Qed.

(** X10: [deleteTeam] keeps team names unique and every team reference of
    a user on a stored team, whatever its outcome: also when one of its
    writes fails, since the members are detached before the row goes. *)
Theorem deleteTeam_keeps_invariants (id : TeamId) (w : World) r w' :
  deleteTeam id w = (r, w') →
  (unique_names (store w) → unique_names (store w')) ∧
  (references_stored (store w) → references_stored (store w')).
Proof.
  intros H. apply deleteTeam_cases in H
    as [(_ & -> & _) | (row & r1 & w1 & Hrow & Hloop & Hend)]; [done |].
  pose proof (detach_members_rows _ _ _ _ Hloop) as (Ht & Hrows & Hok).
  destruct Hend as [(msg & _ & Hs) | (-> & _ & Hs & _)]; rewrite Hs.
  - split.
    + intros Hu i j ri rj. rewrite Ht. apply Hu.
    + intros Hrefs k urow t Hk Hteam. rewrite Ht.
      apply Hrows in Hk as [Hk | Hk]; [congruence | by eapply Hrefs].
  - split.
    + intros Hu i j ri rj. simpl. rewrite Ht.
      intros Hi%lookup_delete_Some Hj%lookup_delete_Some.
      apply Hu; tauto.
    + intros Hrefs k urow t Hk Hteam. simpl in *. rewrite Ht.
      pose proof Hk as Hk1.
      apply Hrows in Hk as [Hk | Hk]; [congruence |].
      destruct (decide (t = id)) as [-> | Hne].
      * exfalso. destruct (Hok eq_refl) as [Hs1 _].
        assert (Hm : user_of k urow ∈ members_of id (store w)).
        { apply elem_of_members_of. by destruct urow. }
        destruct (users_put_detached (members_of id (store w)) (store w)
                    (NoDup_members_of _ _)) as [Hin _].
        apply Hin in Hm. rewrite <- Hs1 in Hm. simpl in Hm.
        rewrite Hk1 in Hm. injection Hm as Hm.
        apply (f_equal row_team) in Hm. simpl in Hm. congruence.
      * rewrite lookup_delete_ne by done. by eapply Hrefs.
Qed.

Lemma deleteTeam_keeps_invariants_witness :
  let w' := snd (deleteTeam "t1" (mkWorld store_beta [None; Some "timeout"])) in
  (unique_names store_beta → unique_names (store w')) ∧
  (references_stored store_beta → references_stored (store w')).
Proof.
  apply (deleteTeam_keeps_invariants "t1" (mkWorld store_beta [None; Some "timeout"])
           (inl (PersistenceError "timeout"))).
  by vm_compute.
Defined.

Lemma first_fault_clean (n : nat) (l : list (option string)) :
  first_fault n (replicate n None ++ l) = None.
Proof. induction n as [| n IH]; [done | exact IH]. Qed.

(** X11: [deleteTeam] is not all-or-nothing and has no [catch].  When the
    write number [j] of the request fails (counting from 0: a save of the
    loop, or the removal when [j] is the number of members),
    [deleteTeam] rejects with the raw error of that write and the team
    row is still stored; the [j] members saved before the failure have
    lost their team, and every other user row, the members not yet
    saved included, is as it was. *)
Theorem deleteTeam_interrupted (id : TeamId) (w : World) row j msg rest :
  teams (store w) !! id = Some row →
  j ≤ length (members_of id (store w)) →
  pending w = replicate j None ++ Some msg :: rest →
  ∃ w' saved,
    deleteTeam id w = (inl (PersistenceError msg), w') ∧
    pending w' = rest ∧
    teams (store w') = teams (store w) ∧
    saved ⊆+ members_of id (store w) ∧
    length saved = j ∧
    (∀ m, m ∈ saved →
          users (store w') !! user_id m = Some (mkUserRow (user_role m) None)) ∧
    (∀ k, k ∉ user_id <$> saved →
          users (store w') !! k = users (store w) !! k).
Proof.
  intros Hrow Hj Hp.
  set (ms := members_of id (store w)) in *.
  exists (mkWorld (put_users (detached <$> take j ms) (store w)) rest), (take j ms).
  assert (Hnd : NoDup (user_id <$> take j ms)).
  { eapply sublist_NoDup; [apply (NoDup_members_of id (store w)) |].
    apply fmap_sublist, sublist_take. }
  destruct (users_put_detached (take j ms) (store w) Hnd) as [Hin Hout].
  split; [| simpl; split; [done | split; [apply teams_put_users |]]].
  2: { split; [apply sublist_submseteq, sublist_take |].
       split; [by apply length_take_le | by split]. }
  unfold deleteTeam, findOne, findTeamWithMembers. run. rewrite Hrow. simpl.
  fold ms. destruct (decide (j = length ms)) as [-> | Hlt].
  - rewrite detach_members_run by (rewrite Hp; apply first_fault_clean).
    unfold removeTeam. rewrite persist_run. cbn [store pending].
    rewrite Hp, drop_app_length' by (by rewrite length_replicate).
    by rewrite firstn_all.
  - rewrite <- (take_drop j ms) at 1.
    destruct (drop j ms) as [| m ms2] eqn:Hdrop.
    { apply (f_equal length) in Hdrop. rewrite length_drop in Hdrop.
      simpl in Hdrop. lia. }
    rewrite (detach_members_fault (take j ms) ms2 m w msg rest); [done |].
    rewrite length_take_le by done. exact Hp.
Qed.

Lemma deleteTeam_interrupted_witness :
  ∃ w' saved,
    deleteTeam "t2" (mkWorld store_beta [None; Some "timeout"; None])
    = (inl (PersistenceError "timeout"), w') ∧
    pending w' = [None] ∧
    teams (store w') = teams store_beta ∧
    saved ⊆+ members_of "t2" store_beta ∧
    length saved = 1 ∧
    (∀ m, m ∈ saved →
          users (store w') !! user_id m = Some (mkUserRow (user_role m) None)) ∧
    (∀ k, k ∉ user_id <$> saved →
          users (store w') !! k = users store_beta !! k).
Proof.
  apply (deleteTeam_interrupted "t2" (mkWorld store_beta [None; Some "timeout"; None])
           (mkTeamRow "Beta" None) 1 "timeout" [None]).
  - by vm_compute.
  - vm_compute. lia.
  - reflexivity.
Defined.

(** X12: a resolved [deleteTeam] leaves the other teams alone: their rows
    and their members are as before. *)
Theorem deleteTeam_leaves_other_teams (id other : TeamId) (w w' : World) :
  deleteTeam id w = (inr (), w') →
  other ≠ id →
  teams (store w') !! other = teams (store w) !! other ∧
  ∀ x, x ∈ members_of other (store w') ↔ x ∈ members_of other (store w).
Proof.
  intros H Hother. apply deleteTeam_resolved in H as (_ & -> & _).
  destruct (users_put_detached (members_of id (store w)) (store w)
              (NoDup_members_of _ _)) as [Hin Hout].
  split.
  - simpl. by rewrite teams_put_users, lookup_delete_ne.
  - intros x. rewrite !elem_of_members_of. simpl.
    destruct (decide (user_id x ∈ user_id <$> members_of id (store w)))
      as [Hk | Hk].
    + apply list_elem_of_fmap in Hk as (m & Hid & Hm).
      rewrite Hid, Hin by done.
      apply elem_of_members_of in Hm as [Hm Hteam]. rewrite Hm.
      destruct x, m. unfold row_of_user. simpl in *.
      split; intros [? ?]; simplify_eq.
    + by rewrite Hout.
Qed.

Lemma deleteTeam_leaves_other_teams_witness :
  let w' := snd (deleteTeam "t1" (mkWorld store_beta [])) in
  teams (store w') !! "t2" = teams store_beta !! "t2" ∧
  ∀ x, x ∈ members_of "t2" (store w') ↔ x ∈ members_of "t2" store_beta.
Proof.
  apply (deleteTeam_leaves_other_teams "t1" "t2" (mkWorld store_beta [])).
  - by vm_compute.
  - done.
Defined.

(** X13: a [deleteTeam] that has resolved cannot be repeated: the second
    call rejects with [TEAM_NOT_FOUND] and writes nothing. *)
Theorem deleteTeam_twice (id : TeamId) (w w' : World) :
  deleteTeam id w = (inr (), w') →
  deleteTeam id w' =
  (inl (RpcException (createGRPCErrorResponse TEAM_NOT_FOUND "团队未找到")), w').
Proof.
  intros H. apply deleteTeam_resolved in H as (_ & Hs & _).
  unfold deleteTeam, findOne, findTeamWithMembers. run.
  rewrite Hs. simpl. by rewrite lookup_delete_eq.
Qed.

Lemma deleteTeam_twice_witness :
  let w' := snd (deleteTeam "t1" (mkWorld store_beta [])) in
  deleteTeam "t1" w' =
  (inl (RpcException (createGRPCErrorResponse TEAM_NOT_FOUND "团队未找到")), w').
Proof.
  apply (deleteTeam_twice "t1" (mkWorld store_beta [])).
  by vm_compute.
Defined.

(** X14: deleting a team that [createTeam] has just created gives the
    team table back as it was, but not the users: the listed members
    stay [EXTERNAL_MEMBER] and the administrator, unless it is itself
    listed as a member, [EXTERNAL_SUPER_ADMIN], now without a team,
    whatever role and team they had before.  The users the request did
    not name are as before. *)
Theorem createTeam_then_deleteTeam uuid dto w r w' w'' :
  createTeam uuid dto w = (inr r, w') →
  deleteTeam uuid w' = (inr (), w'') →
  teams (store w) !! uuid = None →
  (∀ k row, users (store w) !! k = Some row → row_team row ≠ Some uuid) →
  teams (store w'') = teams (store w) ∧
  (∀ k, k ∈ dto_members dto →
        users (store w'') !! k = Some (mkUserRow EXTERNAL_MEMBER None)) ∧
  (super_admin_user_id dto ∉ dto_members dto →
   users (store w'') !! super_admin_user_id dto
   = Some (mkUserRow EXTERNAL_SUPER_ADMIN None)) ∧
  (∀ k, k ∉ named_users dto → users (store w'') !! k = users (store w) !! k).
Proof.
  intros Hc Hd Hfresh Hnew.
  apply createTeam_resolved in Hc as (_ & (_ & Ha & Hlen) & _ & ->).
  apply resolve_length in Hlen as [_ Hall].
  apply deleteTeam_resolved in Hd as (_ & -> & _). simpl.
  set (s' := created uuid dto (store w)).
  destruct (users_put_detached (members_of uuid s') s' (NoDup_members_of _ _))
    as [Hin Hout].
  split; [| split; [| split]].
  - rewrite teams_put_users. unfold s'. rewrite teams_created.
    by apply delete_insert_id.
  - intros k Hk.
    apply (Hin (mkUser k EXTERNAL_MEMBER (Some uuid))).
    apply elem_of_members_of. split; [| done]. unfold s'. simpl.
    rewrite users_created, decide_True; [done |].
    split; [done | by apply Hall].
  - intros Hadm.
    apply (Hin (mkUser (super_admin_user_id dto) EXTERNAL_SUPER_ADMIN (Some uuid))).
    apply elem_of_members_of. split; [| done]. unfold s'. simpl.
    rewrite users_created, decide_False by (by intros [? _]).
    by rewrite decide_True.
  - intros k [Hadm Hm]%not_elem_of_cons.
    assert (Hsame : users s' !! k = users (store w) !! k).
    { unfold s'. rewrite users_created, decide_False by (by intros [? _]).
      by rewrite decide_False. }
    rewrite Hout; [done |].
    intros (x & -> & [Hx Ht]%elem_of_members_of)%list_elem_of_fmap.
    rewrite Hsame in Hx. apply Hnew in Hx. by destruct x.
Qed.

Lemma createTeam_then_deleteTeam_witness :
  let w'' := snd (deleteTeam "t2" (mkWorld store_beta [])) in
  teams (store w'') = teams store_alpha ∧
  (∀ k, k ∈ ["u2"] →
        users (store w'') !! k = Some (mkUserRow EXTERNAL_MEMBER None)) ∧
  ("u3" ∉ ["u2"] →
   users (store w'') !! "u3" = Some (mkUserRow EXTERNAL_SUPER_ADMIN None)) ∧
  (∀ k, k ∉ ["u3"; "u2"] → users (store w'') !! k = users store_alpha !! k).
Proof.
  apply (createTeam_then_deleteTeam "t2" (mkCreateTeamDTO "Beta" None "u3" ["u2"])
           (mkWorld store_alpha []) None (mkWorld store_beta [])).
  - by vm_compute.
  - by vm_compute.
  - by vm_compute.
  - intros k row Hk. vm_compute in Hk.
    repeat (case_match; simplify_eq); done.
Defined.

(** ** More on [updateTeam] *)

(** X15: [updateTeam] resolves exactly when the team is stored and the new
    name, if one is supplied, is empty, is the name the team has, or is
    the name of no stored team.  Giving a team the name it has is not a
    collision. *)
Theorem updateTeam_resolves_iff (dto : UpdateTeamDTO) (w : World) :
  (∃ w', updateTeam dto w = (inr (), w')) ↔
  ∃ row,
    teams (store w) !! upd_id dto = Some row ∧
    ∀ n, upd_name dto = Some n →
         n = "" ∨ n = row_name row ∨ ¬ name_taken n (store w).
Proof.
  rewrite updateTeam_run. split.
  - intros [w' H].
    destruct (teams (store w) !! upd_id dto) as [row |]; [| done].
    exists row. split; [done |]. intros n Hn. rewrite Hn in H. simpl in H.
    destruct (decide (n = "")) as [-> | Hne]; [by left |].
    destruct (decide (n = row_name row)) as [-> | Hdiff]; [by right; left |].
    right; right. apply team_named_None.
    rewrite !bool_decide_eq_true_2 in H by congruence. simpl in H.
    by destruct (team_named n (store w)).
  - intros (row & -> & Hname). exists w.
    destruct (upd_name dto) as [n |]; [| done]. simpl.
    destruct (Hname n eq_refl) as [-> | [-> | Hfree]].
    + done.
    + rewrite (bool_decide_eq_false_2 (Some _ ≠ _)) by (by intros ?).
      by rewrite andb_false_r.
    + apply team_named_None in Hfree.
      destruct (_ && _); [by rewrite Hfree | done].
Qed.

(** On the store with two teams: "Beta" keeps its name, takes a new one,
    and cannot take the name of "Alpha". *)
Example updateTeam_beta :
  updateTeam (mkUpdateTeamDTO "t2" (Some "Beta") None) (mkWorld store_beta [])
  = (inr (), mkWorld store_beta []) ∧
  updateTeam (mkUpdateTeamDTO "t2" (Some "Gamma") None) (mkWorld store_beta [])
  = (inr (), mkWorld store_beta []) ∧
  updateTeam (mkUpdateTeamDTO "t2" (Some "Alpha") None) (mkWorld store_beta [])
  = (inl (RpcException (createGRPCErrorResponse TEAM_NAME_EXISTS "团队名已存在")),
     mkWorld store_beta []).
Proof. by vm_compute. Qed.
